(** * toolkit/v2: a shallow embedding of [tools.go]

    The methods of [*Tools] are translated one by one; the receiver, the
    random source and the file system are threaded explicitly.  What the
    source calls in Go's standard library ([crypto/rand], [strings],
    [path/filepath], [mime/multipart], [net/http], [encoding/json]) is
    modelled in the modules that come first, each definition naming the
    library function it stands for. *)

From Stdlib Require Import ZArith Znumtheory String Ascii Strings.Byte List Lia.
From stdpp Require Import gmap strings list pretty.

Open Scope Z_scope.

(** ** Go errors *)

(** The [error] values that reach [tools.go].  The first three are the
    concrete types of [encoding/json] that [ReadJSON] tests with
    [errors.As]; [EOF] and [ErrUnexpectedEOF] are the sentinels of [io];
    [ErrorString] is what [errors.New] and [fmt.Errorf] build. *)
Inductive go_error : Type :=
| SyntaxError (msg : string) (Offset : Z)
| UnmarshalTypeError (Value : string) (Type_ : string) (Offset : Z) (Struct Field : string)
| InvalidUnmarshalError (Type_ : string)
| ErrUnexpectedEOF
| EOF
| ErrorString (msg : string).

#[global] Instance go_error_eq_dec : EqDecision go_error.
Proof. solve_decision. Defined.

(** A Go [error] result: [None] is [nil]. *)
Abbreviation error := (option go_error).

Module errors.
Definition New (msg : string) : go_error := ErrorString msg.
End errors.

(** [err.Error()], as each type implements it. *)
Definition Error (e : go_error) : string :=
  match e with
  | SyntaxError msg _ => msg
  | UnmarshalTypeError v t _ s f =>
      if (String.eqb s "" && String.eqb f "")%bool
      then "json: cannot unmarshal " +:+ v +:+ " into Go value of type " +:+ t
      else "json: cannot unmarshal " +:+ v +:+ " into Go struct field " +:+ s +:+ "." +:+ f
           +:+ " of type " +:+ t
  | InvalidUnmarshalError t => "json: Unmarshal(" +:+ t +:+ ")"
  | ErrUnexpectedEOF => "unexpected EOF"
  | EOF => "EOF"
  | ErrorString msg => msg
  end.

(** ** The world outside the program *)

(** The system calls of [UploadFiles] that can fail for reasons outside the
    program (permissions, a full disk, a vanished temporary file). *)
Inductive syscall : Type :=
| SysStat (path : string)
| SysMkdirAll (path : string)
| SysOpen (filename : string)
| SysSeek (filename : string)
| SysCreate (path : string)
| SysCopy (path : string).

(** The state the methods act on besides their receiver:
    - [rand_Reader]: the outcomes of the successive calls
      [rand.Prime(rand.Reader, 64)], in order; [None] is a call that returns
      an error, and so is a call on the exhausted tape;
    - [fs_dirs], [fs_files]: the directories and the regular files on disk;
    - [os_fault]: the system calls that fail, with the error they return; for
      [SysStat] these are the failures of [os.Stat] other than the one for a
      path that does not exist (a parent that is not a directory, a directory
      that may not be searched);
    - [os_made]: the parents of a path that a call of [os.MkdirAll] on this
      path makes on its way, before it makes the path itself or fails. *)
Record World : Type := mkWorld {
  rand_Reader : list (option Z);
  fs_dirs : gset string;
  fs_files : gmap string (list byte);
  os_fault : syscall -> error;
  os_made : string -> list string
}.

Definition with_rand (w : World) (r : list (option Z)) : World :=
  mkWorld r (fs_dirs w) (fs_files w) (os_fault w) (os_made w).
Definition with_dir (w : World) (path : string) : World :=
  mkWorld (rand_Reader w) ({[path]} ∪ fs_dirs w) (fs_files w) (os_fault w) (os_made w).
Definition with_file (w : World) (path : string) (data : list byte) : World :=
  mkWorld (rand_Reader w) (fs_dirs w) (<[path := data]> (fs_files w)) (os_fault w) (os_made w).

(** ** crypto/rand *)

Module rand.
(** [rand.Prime(rand.Reader, bits)]: an error for [bits < 2] or when the
    reader fails, and otherwise the next number of the tape. *)
Definition Prime (bits : Z) (w : World) : (go_error + Z) * World :=
  if bits <? 2 then (inl (ErrorString "crypto/rand: prime size must be at least 2-bit"), w)
  else match rand_Reader w with
       | [] => (inl ErrUnexpectedEOF, w)
       | None :: tape => (inl ErrUnexpectedEOF, with_rand w tape)
       | Some p :: tape => (inr p, with_rand w tape)
       end.

(** What the library documents of a successful result: a prime of exactly
    [bits] bits. *)
Definition prime_of_bits (bits p : Z) : Prop :=
  Z.prime p /\ 2 ^ (bits - 1) <= p < 2 ^ bits.

(** The property of such a result that [RandomString] is sensitive to. *)
Definition odd_draw (d : option Z) : Prop :=
  forall p, d = Some p -> Z.odd p = true.

Definition odd_tape (w : World) : Prop := Forall odd_draw (rand_Reader w).
End rand.

(** ** Tools *)

Definition randomStringSource : string :=
  "abcdefghijklmnopqrstuvwxyzABCDEFGHIJKLMNOPQRSTUVWXYZ0123456789_+".

(** [type Tools struct]: the receiver of every method. *)
Record Tools : Type := mkTools {
  MaxFileSize : Z;
  AllowedFileTypes : list string;
  MaxJSONSize : Z;
  AllowUnknownFields : bool
}.

(** [[]rune(randomStringSource)]: the source is ASCII, one rune per byte. *)
Definition source_runes : list ascii := list_ascii_of_string randomStringSource.

(** [r[i]] for the index [i := x % y] of the loop body. *)
Definition rune_at (i : Z) : ascii := nth (Z.to_nat i) source_runes "000"%char.

(** [p.Uint64()]: the low 64 bits of [p]. *)
Definition Uint64 (p : Z) : Z := p mod 2 ^ 64.

(** The loop of [RandomString]: [None] when a call of [rand.Prime] fails, and
    the runes written to [s] otherwise. *)
Fixpoint RandomString_loop (n : nat) (w : World) : option (list ascii) * World :=
  match n with
  | O => (Some [], w)
  | S n' =>
      let len_r := Z.of_nat (length source_runes) in
      match rand.Prime len_r w with
      | (inl _, w') => (None, w')
      | (inr p, w') =>
          let x := Uint64 p in
          let y := len_r in
          let c := rune_at (x mod y) in
          match RandomString_loop n' w' with
          | (Some s, w'') => (Some (c :: s), w'')
          | (None, w'') => (None, w'')
          end
      end
  end.

(** [func (t *Tools) RandomString(n int) string], for [n >= 0]
    ([make([]rune, n)] panics on a negative [n]). *)
Definition RandomString (n : nat) (w : World) : string * World :=
  match RandomString_loop n w with
  | (Some s, w') => (string_of_list_ascii s, w')
  | (None, w') => ("RandomString Error", w')
  end.

(** The runes at the odd positions of [randomStringSource]. *)
Definition odd_runes : list ascii :=
  list_ascii_of_string "bdfhjlnprtvxzBDFHJLNPRTVXZ13579+".

(** ** strings, path/filepath, fmt *)

Module gostrings.
(** [strings.HasPrefix(s, prefix)]. *)
Definition HasPrefix (s prefix : string) : bool := String.prefix prefix s.

(** [strings.TrimPrefix(s, prefix)]: [s] without the leading [prefix], and
    [s] itself when it does not start with [prefix]. *)
Definition TrimPrefix (s prefix : string) : string :=
  if HasPrefix s prefix
  then String.substring (String.length prefix) (String.length s - String.length prefix) s
  else s.

(** [strings.Trim(s, cutset)]: [s] without its leading and its trailing
    bytes that occur in [cutset]. *)
Definition in_cutset (cutset : list ascii) (c : ascii) : bool :=
  existsb (Ascii.eqb c) cutset.
Fixpoint TrimLeft_list (cutset : list ascii) (l : list ascii) : list ascii :=
  match l with
  | [] => []
  | c :: l' => if in_cutset cutset c then TrimLeft_list cutset l' else l
  end.
Definition TrimRight_list (cutset : list ascii) (l : list ascii) : list ascii :=
  rev (TrimLeft_list cutset (rev l)).
Definition Trim (s cutset : string) : string :=
  let cs := list_ascii_of_string cutset in
  string_of_list_ascii (TrimRight_list cs (TrimLeft_list cs (list_ascii_of_string s))).

(** The lower-case form of an ASCII byte; other bytes are left alone. *)
Definition lower_byte (c : ascii) : ascii :=
  let n := nat_of_ascii c in
  if ((65 <=? n) && (n <=? 90))%nat then ascii_of_nat (n + 32) else c.

(** [strings.ToLower] on a string of ASCII bytes (the library's own fast
    path for such strings works byte by byte in this way). *)
Definition ToLower_ascii (s : string) : string :=
  string_of_list_ascii (map lower_byte (list_ascii_of_string s)).

(** [strings.EqualFold] on strings of ASCII bytes: equality up to the case
    of the letters. *)
Definition EqualFold_ascii (s u : string) : bool :=
  String.eqb (ToLower_ascii s) (ToLower_ascii u).
End gostrings.

Module filepath.
(** The loop of [filepath.Ext], which walks [path] from its last byte
    towards its first one and stops at a separator: [acc] is what has been
    walked over. *)
Fixpoint Ext_loop (rev_path acc : list ascii) : list ascii :=
  match rev_path with
  | [] => []
  | c :: before =>
      if Ascii.eqb c "/" then []
      else if Ascii.eqb c "." then c :: acc
      else Ext_loop before (c :: acc)
  end.

(** [filepath.Ext(path)]: the suffix of the last element of [path] from its
    last dot on; empty when there is no dot. *)
Definition Ext (path : string) : string :=
  string_of_list_ascii (Ext_loop (rev (list_ascii_of_string path)) []).

(** [filepath.Join(dir, name)] for a non-empty [dir] and a [name] that needs
    no cleaning. *)
Definition Join (dir name : string) : string := dir +:+ "/" +:+ name.
End filepath.

(** [fmt.Sprintf] with the verb [%d]. *)
Definition fmt_d (n : Z) : string := pretty n.

(** The double quote (byte 34), which [%q] puts around its operand. *)
Definition dquote : string := String (ascii_of_nat 34) EmptyString.

(** [fmt.Sprintf] with the verb [%q], for an operand of printable ASCII bytes:
    the operand between double quotes, with a backslash before each double
    quote and each backslash. *)
Fixpoint quote_body (s : string) : string :=
  match s with
  | EmptyString => EmptyString
  | String c s' =>
      if (Ascii.eqb c (ascii_of_nat 34) || Ascii.eqb c (ascii_of_nat 92))%bool
      then String (ascii_of_nat 92) (String c (quote_body s'))
      else String c (quote_body s')
  end.
Definition fmt_q (s : string) : string := dquote +:+ quote_body s +:+ dquote.

(** ** mime/multipart, os, io *)

(** [multipart.FileHeader]: the file name the client sent and the bytes of
    the part. *)
Record FileHeader : Type := mkFileHeader {
  Filename : string;
  content : list byte
}.

(** [multipart.File]: an open part, read from position [pos]. *)
Record File : Type := mkFile {
  file_name : string;
  file_data : list byte;
  pos : nat
}.

(** [*http.Request], as far as [UploadFiles] looks at it:
    [r.ParseMultipartForm(maxMemory)] returns an error or fills
    [r.MultipartForm]; [inr parts] lists the file parts of the body in the
    order they occur in it, each with the name of its form field. *)
Record Request : Type := mkRequest {
  ParseMultipartForm : Z -> go_error + list (string * FileHeader)
}.

Module multipart.
(** [form.File[name] = append(form.File[name], fh)], the statement with which
    the library files each part under its field name. *)
Definition add_part (m : gmap string (list FileHeader)) (p : string * FileHeader)
  : gmap string (list FileHeader) :=
  <[p.1 := default [] (m !! p.1) ++ [p.2]]> m.

(** [r.MultipartForm.File], a [map[string][]*FileHeader]. *)
Definition form_File (parts : list (string * FileHeader)) : gmap string (list FileHeader) :=
  foldl add_part ∅ parts.

(** [fileHeader.Open()]. *)
Definition Open (fh : FileHeader) (w : World) : go_error + File :=
  match os_fault w (SysOpen (Filename fh)) with
  | Some err => inl err
  | None => inr (mkFile (Filename fh) (content fh) 0)
  end.

(** [inFile.Read(buff)]: copies the next bytes of the file over the start of
    [buff] and returns their number; at the end of the file it copies nothing
    and returns [io.EOF]. *)
Definition Read (f : File) (buff : list byte) : (list byte * Z * error) * File :=
  let rest := drop (pos f) (file_data f) in
  match rest, buff with
  | _, [] => ((buff, 0, None), f)
  | [], _ => ((buff, 0, Some EOF), f)
  | _, _ =>
      let n := Nat.min (length buff) (length rest) in
      ((take n rest ++ drop n buff, Z.of_nat n, None),
       mkFile (file_name f) (file_data f) (pos f + n))
  end.

(** [inFile.Seek(0, 0)]. *)
Definition Seek_start (f : File) (w : World) : go_error + File :=
  match os_fault w (SysSeek (file_name f)) with
  | Some err => inl err
  | None => inr (mkFile (file_name f) (file_data f) 0)
  end.
End multipart.

Module gos.
(** [_, err := os.Stat(path); os.IsNotExist(err)]: [true] when [os.Stat]
    finds nothing under [path]; [false] when it finds a directory or a file
    there, and also when it fails for another reason. *)
Definition Stat_IsNotExist (path : string) (w : World) : bool :=
  match os_fault w (SysStat path) with
  | Some _ => false
  | None => negb (bool_decide (path ∈ fs_dirs w) || bool_decide (is_Some (fs_files w !! path)))
  end.

(** [os.MkdirAll(path, mode)]: the library makes the missing parents of
    [path] one after the other, and then [path]; a call that fails leaves
    the parents it has made. *)
Definition MkdirAll (path : string) (w : World) : error * World :=
  let w := foldl with_dir w (os_made w path) in
  match os_fault w (SysMkdirAll path) with
  | Some err => (Some err, w)
  | None => (None, with_dir w path)
  end.

(** [os.Create(name)]: the file is created, or truncated when it exists; the
    handle is the name. *)
Definition Create (name : string) (w : World) : (go_error + string) * World :=
  match os_fault w (SysCreate name) with
  | Some err => (inl err, w)
  | None => (inr name, with_file w name [])
  end.

(** [io.Copy(outFile, inFile)]: writes what is left of [inFile] to the file
    just created and returns the number of bytes written. *)
Definition Copy (outFile : string) (inFile : File) (w : World) : (go_error + Z) * World :=
  match os_fault w (SysCopy outFile) with
  | Some err => (inl err, w)
  | None =>
      let rest := drop (pos inFile) (file_data inFile) in
      (inr (Z.of_nat (length rest)), with_file w outFile rest)
  end.
End gos.

(** A byte that the table of [http.DetectContentType] takes as a sign of
    binary data. *)
Definition is_binary_byte (b : byte) : bool :=
  let n := Byte.to_N b in
  ((n <=? 8) || (n =? 11) || ((14 <=? n) && (n <=? 26)) || ((28 <=? n) && (n <=? 31)))%N.

(** A fragment of the signature table of [http.DetectContentType], enough to
    run the upload on images and on plain text: the magic numbers of PNG, JPEG
    and GIF, the last entry of the table, which takes data without binary
    bytes as text, and the fallback. *)
Definition DetectContentType_magic (data : list byte) : string :=
  match take 512 data with
  | x89 :: x50 :: x4e :: x47 :: x0d :: x0a :: x1a :: x0a :: _ => "image/png"
  | xff :: xd8 :: xff :: _ => "image/jpeg"
  | x47 :: x49 :: x46 :: x38 :: x37 :: x61 :: _ => "image/gif"
  | x47 :: x49 :: x46 :: x38 :: x39 :: x61 :: _ => "image/gif"
  | prefix =>
      if existsb is_binary_byte prefix then "application/octet-stream"
      else "text/plain; charset=utf-8"
  end.

(** ** The upload methods *)

(** [type UploadedFile struct]. *)
Record UploadedFile : Type := mkUploadedFile {
  NewFileName : string;
  OriginalFileName : string;
  FileSize : Z
}.

(** What a call does: it returns, or it panics. *)
Inductive outcome (A : Type) : Type :=
| Returns (a : A)
| Panics (msg : string).
Arguments Returns {A} a.
Arguments Panics {A} msg.

(** [func (t *Tools) CreateDirIfNotExist(path string) error]. *)
Definition CreateDirIfNotExist (path : string) (w : World) : error * World :=
  if gos.Stat_IsNotExist path w then
    match gos.MkdirAll path w with
    | (Some err, w') => (Some err, w')
    | (None, w') => (None, w')
    end
  else (None, w).

(** [rename ...bool]: [renameFile] is [true] unless a first optional argument
    says otherwise. *)
Definition renameFile_of (rename : list bool) : bool :=
  match rename with
  | [] => true
  | b :: _ => b
  end.

Section Upload.

(** [http.DetectContentType] and [strings.EqualFold], which the source takes
    from the standard library. *)
Variable DetectContentType : list byte -> string.
Variable EqualFold : string -> string -> bool.

(** The check of [fileType] against [t.AllowedFileTypes]. *)
Definition type_allowed (t : Tools) (fileType : string) : bool :=
  if (0 <? length (AllowedFileTypes t))%nat
  then existsb (fun allowedFileType => EqualFold fileType allowedFileType) (AllowedFileTypes t)
  else true.

(** The function literal that [UploadFiles] calls on every [fileHeader]: it
    returns the extended slice and [nil], or [nil] and an error.  (Its two
    deferred calls of [Close] change nothing of what the model keeps.) *)
Definition upload_part (t : Tools) (uploadDir : string) (renameFile : bool)
    (fileHeader : FileHeader) (uploadedFiles : list UploadedFile) (w : World)
  : (list UploadedFile * error) * World :=
  match multipart.Open fileHeader w with
  | inl err => (([], Some err), w)
  | inr inFile =>
      let buff := replicate 512 x00 in
      match multipart.Read inFile buff with
      | ((_, _, Some err), _) => (([], Some err), w)
      | ((buff, _, None), inFile) =>
          let fileType := DetectContentType buff in
          let allowed := type_allowed t fileType in
          if negb allowed
          then (([], Some (errors.New "the uploaded file type is not permitted")), w)
          else
            match multipart.Seek_start inFile w with
            | inl err => (([], Some err), w)
            | inr inFile =>
                let '(newFileName, w) :=
                  if renameFile
                  then let '(s, w) := RandomString 25 w in
                       (s +:+ filepath.Ext (Filename fileHeader), w)
                  else (Filename fileHeader, w) in
                match gos.Create (filepath.Join uploadDir newFileName) w with
                | (inl err, w) => (([], Some err), w)
                | (inr outFile, w) =>
                    match gos.Copy outFile inFile w with
                    | (inl err, w) => (([], Some err), w)
                    | (inr fileSize, w) =>
                        let uploadedFile :=
                          mkUploadedFile newFileName (Filename fileHeader) fileSize in
                        ((uploadedFiles ++ [uploadedFile], None), w)
                    end
                end
            end
      end
  end.

(** [for _, fileHeader := range fileHeaders]: a part that fails ends the whole
    method with [return uploadedFiles, err], after the assignment has
    overwritten [uploadedFiles] with what the function literal returned. *)
Fixpoint upload_headers (t : Tools) (uploadDir : string) (renameFile : bool)
    (fileHeaders : list FileHeader) (uploadedFiles : list UploadedFile) (w : World)
  : (list UploadedFile * error) * World :=
  match fileHeaders with
  | [] => ((uploadedFiles, None), w)
  | fileHeader :: rest =>
      match upload_part t uploadDir renameFile fileHeader uploadedFiles w with
      | ((uploadedFiles, Some err), w) => ((uploadedFiles, Some err), w)
      | ((uploadedFiles, None), w) => upload_headers t uploadDir renameFile rest uploadedFiles w
      end
  end.

(** [for _, fileHeaders := range r.MultipartForm.File]: [keys] is the order in
    which this execution of the [range] statement visits the keys of the map
    (Go leaves the order of a map iteration unspecified). *)
Fixpoint upload_fields (t : Tools) (uploadDir : string) (renameFile : bool)
    (form : gmap string (list FileHeader)) (keys : list string)
    (uploadedFiles : list UploadedFile) (w : World)
  : (list UploadedFile * error) * World :=
  match keys with
  | [] => ((uploadedFiles, None), w)
  | k :: rest =>
      match upload_headers t uploadDir renameFile (default [] (form !! k)) uploadedFiles w with
      | ((uploadedFiles, Some err), w) => ((uploadedFiles, Some err), w)
      | ((uploadedFiles, None), w) =>
          upload_fields t uploadDir renameFile form rest uploadedFiles w
      end
  end.

(** [t.MaxFileSize] after the first statement on it. *)
Definition default_MaxFileSize (t : Tools) : Tools :=
  if MaxFileSize t =? 0
  then mkTools (1024 * 1024 * 1024) (AllowedFileTypes t) (MaxJSONSize t) (AllowUnknownFields t)
  else t.

(** [func (t *Tools) UploadFiles(r *http.Request, uploadDir string,
    rename ...bool) ([]*UploadedFile, error)].  The result carries the
    receiver and the world as the call leaves them. *)
Definition UploadFiles (t : Tools) (r : Request) (uploadDir : string) (rename : list bool)
    (keys : list string) (w : World)
  : (list UploadedFile * error) * Tools * World :=
  let renameFile := renameFile_of rename in
  let t := default_MaxFileSize t in
  match CreateDirIfNotExist uploadDir w with
  | (Some err, w) => (([], Some err), t, w)
  | (None, w) =>
      match ParseMultipartForm r (MaxFileSize t) with
      | inl _ => (([], Some (errors.New "the uploaded file is too big")), t, w)
      | inr parts =>
          let '(res, w) :=
            upload_fields t uploadDir renameFile (multipart.form_File parts) keys [] w in
          (res, t, w)
      end
  end.

(** [func (t *Tools) UploadOneFile(r *http.Request, uploadDir string,
    rename ...bool)], which returns a pointer to an [UploadedFile] and an
    error; [files[0]] on an empty slice is a run-time panic. *)
Definition UploadOneFile (t : Tools) (r : Request) (uploadDir : string) (rename : list bool)
    (keys : list string) (w : World)
  : outcome (option UploadedFile * error) * Tools * World :=
  let renameFile := renameFile_of rename in
  match UploadFiles t r uploadDir [renameFile] keys w with
  | ((_, Some err), t, w) => (Returns (None, Some err), t, w)
  | ((files, None), t, w) =>
      match files with
      | [] => (Panics "runtime error: index out of range [0] with length 0", t, w)
      | file0 :: _ => (Returns (Some file0, None), t, w)
      end
  end.

End Upload.

(** The orders in which a [range] over the map [m] may visit its keys: each
    key once. *)
Definition range_order {A} (m : gmap string A) (keys : list string) : Prop :=
  NoDup keys /\ forall k, k ∈ keys <-> is_Some (m !! k).

(** What a record tells of the part it was made from, and the same of a
    part. *)
Definition record_info (u : UploadedFile) : string * Z := (OriginalFileName u, FileSize u).
Definition part_info (h : FileHeader) : string * Z :=
  (Filename h, Z.of_nat (length (content h))).

(** The parts of the body under the form field [k], in the order of the
    body. *)
Definition field_parts (k : string) (parts : list (string * FileHeader)) : list FileHeader :=
  map snd (filter (fun p => p.1 = k) parts).

(** The parts in the order in which the two loops come to them when the
    [range] over the map visits the fields in the order [keys]. *)
Definition visited (parts : list (string * FileHeader)) (keys : list string) : list FileHeader :=
  flat_map (fun k => field_parts k parts) keys.

(** The file of the record [u] is on disk. *)
Definition on_disk (uploadDir : string) (w : World) (u : UploadedFile) : Prop :=
  is_Some (fs_files w !! filepath.Join uploadDir (NewFileName u)).

(** What a run of the loops of [UploadFiles] over the parts [hs] returns and
    does: nothing is returned with an error; with [nil], the records the run
    started from and one record for each part in [hs], in order, their files
    on disk.  No file leaves the disk. *)
Definition loop_result (uploadDir : string) (renameFile : bool) (hs : list FileHeader)
    (ufs res : list UploadedFile) (e : error) (w w' : World) : Prop :=
  match e with
  | Some _ => res = []
  | None =>
      exists us, res = ufs ++ us /\ map record_info us = map part_info hs /\
                 (renameFile = false -> map NewFileName us = map Filename hs) /\
                 Forall (on_disk uploadDir w') us
  end /\
  (forall path, is_Some (fs_files w !! path) -> is_Some (fs_files w' !! path)) /\
  os_fault w' = os_fault w.

(** [t.MaxFileSize] as [r.ParseMultipartForm] receives it. *)
Definition maxMemory (t : Tools) : Z :=
  if MaxFileSize t =? 0 then 1073741824 else MaxFileSize t.

(** ** regexp and Slugify *)

Module regexp.
(** The expressions of the shape [[^...]+]: one or more bytes outside the
    listed ranges.  (The library matches runes; every byte of a rune that is
    not ASCII lies outside each ASCII range, so that on the expression of
    [Slugify] a run of such runes and the run of their bytes are replaced
    alike.) *)
Record Regexp : Type := mkRegexp { excluded : list (ascii * ascii) }.

Definition in_range (c : ascii) (r : ascii * ascii) : bool :=
  ((nat_of_ascii r.1 <=? nat_of_ascii c) && (nat_of_ascii c <=? nat_of_ascii r.2))%nat.

(** Whether the bracket expression accepts the byte [c]. *)
Definition class_match (re : Regexp) (c : ascii) : bool :=
  negb (existsb (in_range c) (excluded re)).

(** The replacement loop: [ReplaceAll_scan] looks for the start of the next
    match, [ReplaceAll_skip] is inside a match, which [+] extends as far as
    the bytes allow. *)
Fixpoint ReplaceAll_scan (re : Regexp) (repl src : list ascii) : list ascii :=
  match src with
  | [] => []
  | c :: rest =>
      if class_match re c then repl ++ ReplaceAll_skip re repl rest
      else c :: ReplaceAll_scan re repl rest
  end
with ReplaceAll_skip (re : Regexp) (repl src : list ascii) : list ascii :=
  match src with
  | [] => []
  | c :: rest =>
      if class_match re c then ReplaceAll_skip re repl rest
      else c :: ReplaceAll_scan re repl rest
  end.

(** [re.ReplaceAllLiteralString(src, repl)]. *)
Definition ReplaceAllLiteralString (re : Regexp) (src repl : string) : string :=
  string_of_list_ascii
    (ReplaceAll_scan re (list_ascii_of_string repl) (list_ascii_of_string src)).
End regexp.

Section Slug.

(** [strings.ToLower], from the standard library. *)
Variable ToLower : string -> string.

(** [func (t *Tools) Slugify(s string) (string, error)]. *)
Definition Slugify (s : string) : string * error :=
  if String.eqb s "" then ("", Some (errors.New "empty string not permitted"))
  else
    (* regexp.MustCompile(`[^a-z\d]+`) *)
    let re := regexp.mkRegexp [("a", "z"); ("0", "9")]%char in
    let slug := gostrings.Trim (regexp.ReplaceAllLiteralString re (ToLower s) "-") "-" in
    if (String.length slug =? 0)%nat
    then ("", Some (errors.New "after removing characters, slug is zero length"))
    else (slug, None).

End Slug.

(** *** Slugify in the words of its specification *)

(** A character outside [[a-z0-9]]. *)
Definition outside_a_z_0_9 (c : ascii) : bool :=
  let n := nat_of_ascii c in
  negb (((97 <=? n) && (n <=? 122)) || ((48 <=? n) && (n <=? 57)))%nat.

(** The maximal runs of [l]: its consecutive pieces on which [p] is constant,
    each with the value of [p] on it. *)
Fixpoint maximal_runs {A} (p : A -> bool) (l : list A) : list (bool * list A) :=
  match l with
  | [] => []
  | c :: l' =>
      match maximal_runs p l' with
      | (b, run) :: runs =>
          if Bool.eqb (p c) b then (b, c :: run) :: runs
          else (p c, [c]) :: (b, run) :: runs
      | [] => [(p c, [c])]
      end
  end.

(** Runs in which the value of [p] changes from each run to the next. *)
Fixpoint alternating {A} (rs : list (bool * list A)) : Prop :=
  match rs with
  | r1 :: ((r2 :: _) as rest) => r1.1 <> r2.1 /\ alternating rest
  | _ => True
  end.



(** Without the leading, and without the trailing, hyphens. *)
Fixpoint strip_leading_hyphens (l : list ascii) : list ascii :=
  match l with
  | c :: l' => if Ascii.eqb c "-" then strip_leading_hyphens l' else l
  | [] => []
  end.
Fixpoint strip_trailing_hyphens (l : list ascii) : list ascii :=
  match l with
  | c :: l' =>
      match strip_trailing_hyphens l' with
      | [] => if Ascii.eqb c "-" then [] else [c]
      | kept => c :: kept
      end
  | [] => []
  end.




(** ** encoding/json: the scanner *)

Module json.

(** The states of the scanner of [encoding/json] (the functions [state...] of
    its [scanner.go], which the field [step] points to). *)
Inductive scan_state : Type :=
| stateBeginValueOrEmpty | stateBeginValue | stateBeginStringOrEmpty | stateBeginString
| stateEndValue | stateEndTop
| stateInString | stateInStringEsc
| stateInStringEscU | stateInStringEscU1 | stateInStringEscU12 | stateInStringEscU123
| stateNeg | state1 | state0 | stateDot | stateDot0 | stateE | stateESign | stateE0
| stateT | stateTr | stateTru
| stateF | stateFa | stateFal | stateFals
| stateN | stateNu | stateNul
| stateError.

(** What a step reports. *)
Inductive scan_code : Type :=
| scanContinue | scanBeginLiteral | scanBeginObject | scanObjectKey | scanObjectValue
| scanEndObject | scanBeginArray | scanArrayValue | scanEndArray | scanSkipSpace
| scanEnd | scanError.

Inductive parse_state : Type := parseObjectKey | parseObjectValue | parseArrayValue.

(** [type scanner struct]; the top of [parseState] is the head of the list. *)
Record scanner : Type := mkScanner {
  step_ : scan_state;
  endTop : bool;
  parseState : list parse_state;
  err : error;
  bytes : Z
}.

Definition maxNestingDepth : Z := 10000.

Definition set_step (s : scanner) (st : scan_state) : scanner :=
  mkScanner st (endTop s) (parseState s) (err s) (bytes s).
Definition set_parseState (s : scanner) (ps : list parse_state) : scanner :=
  mkScanner (step_ s) (endTop s) ps (err s) (bytes s).
Definition set_bytes (s : scanner) (n : Z) : scanner :=
  mkScanner (step_ s) (endTop s) (parseState s) (err s) n.

(** [s.reset()]. *)
Definition reset (s : scanner) : scanner :=
  mkScanner stateBeginValue false [] None (bytes s).

(** [quoteChar(c)], for a printable byte other than the quotes. *)
Definition quoteChar (c : ascii) : string := "'" +:+ String c "'".

(** [s.error(c, context)]. *)
Definition error_ (s : scanner) (c : ascii) (context : string) : scanner * scan_code :=
  (mkScanner stateError (endTop s) (parseState s)
     (Some (SyntaxError ("invalid character " +:+ quoteChar c +:+ " " +:+ context) (bytes s)))
     (bytes s),
   scanError).

(** [s.pushParseState(c, newParseState, successState)]. *)
Definition pushParseState (s : scanner) (c : ascii) (newParseState : parse_state)
    (successState : scan_code) : scanner * scan_code :=
  let s := set_parseState s (newParseState :: parseState s) in
  if Z.of_nat (length (parseState s)) <=? maxNestingDepth then (s, successState)
  else error_ s c "exceeded max depth".

(** [s.popParseState()]. *)
Definition popParseState (s : scanner) : scanner :=
  let ps := tail (parseState s) in
  match ps with
  | [] => mkScanner stateEndTop true ps (err s) (bytes s)
  | _ => mkScanner stateEndValue (endTop s) ps (err s) (bytes s)
  end.

Definition isSpace (c : ascii) : bool :=
  match c with
  | " "%char | "009"%char | "013"%char | "010"%char => true
  | _ => false
  end.

Definition between (lo hi c : ascii) : bool :=
  ((nat_of_ascii lo <=? nat_of_ascii c) && (nat_of_ascii c <=? nat_of_ascii hi))%nat.

Definition isHex (c : ascii) : bool :=
  (between "0" "9" c || between "a" "f" c || between "A" "F" c)%bool.

(** [stateEndTop]: a byte after the top-level value. *)
Definition do_stateEndTop (s : scanner) (c : ascii) : scanner * scan_code :=
  if negb (isSpace c) then ((error_ s c "after top-level value").1, scanEnd)
  else (s, scanEnd).

(** [stateEndValue]: a byte after a value. *)
Definition do_stateEndValue (s : scanner) (c : ascii) : scanner * scan_code :=
  match parseState s with
  | [] =>
      do_stateEndTop (mkScanner stateEndTop true (parseState s) (err s) (bytes s)) c
  | ps :: below =>
      if isSpace c then (set_step s stateEndValue, scanSkipSpace)
      else
        match ps with
        | parseObjectKey =>
            if Ascii.eqb c ":"
            then (set_step (set_parseState s (parseObjectValue :: below)) stateBeginValue,
                  scanObjectKey)
            else error_ s c "after object key"
        | parseObjectValue =>
            if Ascii.eqb c ","
            then (set_step (set_parseState s (parseObjectKey :: below)) stateBeginString,
                  scanObjectValue)
            else if Ascii.eqb c "}" then (popParseState s, scanEndObject)
            else error_ s c "after object key:value pair"
        | parseArrayValue =>
            if Ascii.eqb c "," then (set_step s stateBeginValue, scanArrayValue)
            else if Ascii.eqb c "]" then (popParseState s, scanEndArray)
            else error_ s c "after array element"
        end
  end.

(** [stateBeginValue]: the first byte of a value. *)
Definition do_stateBeginValue (s : scanner) (c : ascii) : scanner * scan_code :=
  if isSpace c then (s, scanSkipSpace)
  else
    match c with
    | "{"%char => pushParseState (set_step s stateBeginStringOrEmpty) c parseObjectKey scanBeginObject
    | "["%char => pushParseState (set_step s stateBeginValueOrEmpty) c parseArrayValue scanBeginArray
    | "034"%char => (set_step s stateInString, scanBeginLiteral)
    | "-"%char => (set_step s stateNeg, scanBeginLiteral)
    | "0"%char => (set_step s state0, scanBeginLiteral)
    | "t"%char => (set_step s stateT, scanBeginLiteral)
    | "f"%char => (set_step s stateF, scanBeginLiteral)
    | "n"%char => (set_step s stateN, scanBeginLiteral)
    | _ =>
        if between "1" "9" c then (set_step s state1, scanBeginLiteral)
        else error_ s c "looking for beginning of value"
    end.

(** [stateBeginString]: the opening quote of an object key. *)
Definition do_stateBeginString (s : scanner) (c : ascii) : scanner * scan_code :=
  if isSpace c then (s, scanSkipSpace)
  else if Ascii.eqb c "034" then (set_step s stateInString, scanBeginLiteral)
  else error_ s c "looking for beginning of object key string".

Definition do_state0 (s : scanner) (c : ascii) : scanner * scan_code :=
  if Ascii.eqb c "." then (set_step s stateDot, scanContinue)
  else if (Ascii.eqb c "e" || Ascii.eqb c "E")%bool then (set_step s stateE, scanContinue)
  else do_stateEndValue s c.

Definition do_stateESign (s : scanner) (c : ascii) : scanner * scan_code :=
  if between "0" "9" c then (set_step s stateE0, scanContinue)
  else error_ s c "in exponent of numeric literal".

(** A state that accepts the one byte [want] and moves on to [next]. *)
Definition expect (s : scanner) (c want : ascii) (next : scan_state) (context : string)
  : scanner * scan_code :=
  if Ascii.eqb c want then (set_step s next, scanContinue) else error_ s c context.

(** [s.step(s, c)]: the state function the scanner is in, applied to [c]. *)
Definition step (s : scanner) (c : ascii) : scanner * scan_code :=
  match step_ s with
  | stateBeginValueOrEmpty =>
      if isSpace c then (s, scanSkipSpace)
      else if Ascii.eqb c "]" then do_stateEndValue s c
      else do_stateBeginValue s c
  | stateBeginValue => do_stateBeginValue s c
  | stateBeginStringOrEmpty =>
      if isSpace c then (s, scanSkipSpace)
      else if Ascii.eqb c "}"
      then do_stateEndValue (set_parseState s (parseObjectValue :: tail (parseState s))) c
      else do_stateBeginString s c
  | stateBeginString => do_stateBeginString s c
  | stateEndValue => do_stateEndValue s c
  | stateEndTop => do_stateEndTop s c
  | stateInString =>
      if Ascii.eqb c "034" then (set_step s stateEndValue, scanContinue)
      else if Ascii.eqb c "\" then (set_step s stateInStringEsc, scanContinue)
      else if (nat_of_ascii c <? 32)%nat then error_ s c "in string literal"
      else (s, scanContinue)
  | stateInStringEsc =>
      match c with
      | "b"%char | "f"%char | "n"%char | "r"%char | "t"%char | "\"%char | "/"%char
      | "034"%char => (set_step s stateInString, scanContinue)
      | "u"%char => (set_step s stateInStringEscU, scanContinue)
      | _ => error_ s c "in string escape code"
      end
  | stateInStringEscU =>
      if isHex c then (set_step s stateInStringEscU1, scanContinue)
      else error_ s c "in \u hexadecimal character escape"
  | stateInStringEscU1 =>
      if isHex c then (set_step s stateInStringEscU12, scanContinue)
      else error_ s c "in \u hexadecimal character escape"
  | stateInStringEscU12 =>
      if isHex c then (set_step s stateInStringEscU123, scanContinue)
      else error_ s c "in \u hexadecimal character escape"
  | stateInStringEscU123 =>
      if isHex c then (set_step s stateInString, scanContinue)
      else error_ s c "in \u hexadecimal character escape"
  | stateNeg =>
      if Ascii.eqb c "0" then (set_step s state0, scanContinue)
      else if between "1" "9" c then (set_step s state1, scanContinue)
      else error_ s c "in numeric literal"
  | state1 =>
      if between "0" "9" c then (set_step s state1, scanContinue)
      else do_state0 s c
  | state0 => do_state0 s c
  | stateDot =>
      if between "0" "9" c then (set_step s stateDot0, scanContinue)
      else error_ s c "after decimal point in numeric literal"
  | stateDot0 =>
      if between "0" "9" c then (s, scanContinue)
      else if (Ascii.eqb c "e" || Ascii.eqb c "E")%bool then (set_step s stateE, scanContinue)
      else do_stateEndValue s c
  | stateE =>
      if (Ascii.eqb c "+" || Ascii.eqb c "-")%bool then (set_step s stateESign, scanContinue)
      else do_stateESign s c
  | stateESign => do_stateESign s c
  | stateE0 =>
      if between "0" "9" c then (s, scanContinue)
      else do_stateEndValue s c
  | stateT => expect s c "r" stateTr "in literal true (expecting 'r')"
  | stateTr => expect s c "u" stateTru "in literal true (expecting 'u')"
  | stateTru => expect s c "e" stateEndValue "in literal true (expecting 'e')"
  | stateF => expect s c "a" stateFa "in literal false (expecting 'a')"
  | stateFa => expect s c "l" stateFal "in literal false (expecting 'l')"
  | stateFal => expect s c "s" stateFals "in literal false (expecting 's')"
  | stateFals => expect s c "e" stateEndValue "in literal false (expecting 'e')"
  | stateN => expect s c "u" stateNu "in literal null (expecting 'u')"
  | stateNu => expect s c "l" stateNul "in literal null (expecting 'l')"
  | stateNul => expect s c "l" stateEndValue "in literal null (expecting 'l')"
  | stateError => (s, scanError)
  end.

(** [nonSpace(b)]: some byte of [b] is not a space. *)
Definition nonSpace (b : list ascii) : bool := existsb (fun c => negb (isSpace c)) b.

(** The inner loop of [dec.readValue()] over the bytes in the buffer;
    [scanp] counts the bytes passed.  [inl (n, err)] is a return of
    [(n, err)], [inr scanp] the end of the buffer without a verdict. *)
Fixpoint readValue_scan (s : scanner) (buf : list ascii) (scanp : nat)
  : scanner * ((nat * error) + nat) :=
  match buf with
  | [] => (s, inr scanp)
  | c :: rest =>
      let s := set_bytes s (bytes s + 1) in
      match step s c with
      | (s, scanEnd) => (set_bytes s (bytes s - 1), inl (scanp, None))
      | (s, (scanEndObject | scanEndArray)) =>
          match do_stateEndValue s " " with
          | (s, scanEnd) => (s, inl (S scanp, None))
          | (s, _) => readValue_scan s rest (S scanp)
          end
      | (s, scanError) => (s, inl (O, err s))
      | (s, _) => readValue_scan s rest (S scanp)
      end
  end.

(** [http.MaxBytesReader(w, r.Body, n)] over a body held in memory: the bytes
    it delivers, and the error of the read that follows them. *)
Record Reader : Type := mkReader {
  delivered : list ascii;
  final : go_error
}.

Definition MaxBytesReader (Body : string) (n : Z) : Reader :=
  let n := if n <? 0 then 0 else n in
  let b := list_ascii_of_string Body in
  if Z.of_nat (length b) <=? n then mkReader b EOF
  else mkReader (take (Z.to_nat n) b) (ErrorString "http: request body too large").

(** [type Decoder struct]: [buf] is what the reader delivers and no [Decode]
    has consumed, [rd_err] what the reader returns after it, [dec_err] the
    field [err].  (The library fills the buffer piece by piece and looks at
    the error of a read only once it has scanned all the bytes it got, so
    that the pieces do not show in the results.) *)
Record Decoder : Type := mkDecoder {
  buf : list ascii;
  rd_err : go_error;
  dec_err : error;
  scan : scanner;
  disallowUnknownFields : bool
}.

(** [json.NewDecoder(r)]. *)
Definition NewDecoder (r : Reader) : Decoder :=
  mkDecoder (delivered r) (final r) None (mkScanner stateBeginValue false [] None 0) false.

(** [dec.DisallowUnknownFields()]. *)
Definition DisallowUnknownFields (dec : Decoder) : Decoder :=
  mkDecoder (buf dec) (rd_err dec) (dec_err dec) (scan dec) true.

(** [dec.readValue()]: the length of the next value in the buffer, or the
    error that keeps the decoder from reading one. *)
Definition readValue (dec : Decoder) : (nat * error) * Decoder :=
  let with_scan s := mkDecoder (buf dec) (rd_err dec) (dec_err dec) s (disallowUnknownFields dec) in
  let failed s e := mkDecoder (buf dec) (rd_err dec) e s (disallowUnknownFields dec) in
  match readValue_scan (reset (scan dec)) (buf dec) 0 with
  | (s, inl (n, None)) => ((n, None), with_scan s)
  | (s, inl (n, Some e)) => ((n, Some e), failed s (Some e))
  | (s, inr scanp) =>
      if decide (rd_err dec = EOF) then
        match step s " " with
        | (s, scanEnd) => ((scanp, None), with_scan s)
        | (s, _) =>
            let e := if nonSpace (buf dec) then ErrUnexpectedEOF else EOF in
            ((O, Some e), failed s (Some e))
        end
      else ((O, Some (rd_err dec)), failed s (Some (rd_err dec)))
  end.

(** [dec.Decode(v)], given what [d.unmarshal(v)] does with the text of one
    value. *)
Definition Decode {V : Type} (unmarshal : bool -> list ascii -> V -> V * error)
    (dec : Decoder) (v : V) : (V * error) * Decoder :=
  match dec_err dec with
  | Some e => ((v, Some e), dec)
  | None =>
      match readValue dec with
      | ((_, Some e), dec) => ((v, Some e), dec)
      | ((n, None), dec) =>
          let text := take n (buf dec) in
          let dec := mkDecoder (drop n (buf dec)) (rd_err dec) (dec_err dec) (scan dec)
                               (disallowUnknownFields dec) in
          (unmarshal (disallowUnknownFields dec) text v, dec)
      end
  end.

End json.

(** ** ReadJSON *)

Section ReadJSON.

(** The destination [data], and what [encoding/json] stores into it and into
    the [&struct{}{}] of the second call: [Unmarshal disallow text v] is
    [d.unmarshal(v)] on the text of one well-formed value, [disallow] being
    [d.disallowUnknownFields]. *)
Variable Dest : Type.
Variable Unmarshal : bool -> list ascii -> Dest -> Dest * error.
Variable Unmarshal_struct0 : bool -> list ascii -> unit -> unit * error.

(** [maxBytes], after the first statements. *)
Definition maxBytes_of (t : Tools) : Z :=
  if negb (MaxJSONSize t =? 0) then MaxJSONSize t else 1024 * 1024.

(** The [switch] on the error of the first [Decode]. *)
Definition decode_failure (maxBytes : Z) (err : go_error) : go_error :=
  match err with
  | SyntaxError _ Offset =>
      ErrorString ("body contains badly-formed JSON (at character " +:+ fmt_d Offset +:+ ")")
  | UnmarshalTypeError _ _ Offset _ Field =>
      if negb (String.eqb Field "")
      then ErrorString ("body contains incorrect JSON type for field " +:+ fmt_q Field)
      else ErrorString ("body contains incorrect JSON type (at character " +:+ fmt_d Offset +:+ ")")
  | InvalidUnmarshalError _ => ErrorString ("error unmarshalling JSON: " +:+ Error err)
  | ErrUnexpectedEOF => errors.New "body contains badly-formed JSON"
  | EOF => errors.New "body must not be empty"
  | ErrorString _ =>
      if gostrings.HasPrefix (Error err) "json: unknown field" then
        let fieldName := gostrings.TrimPrefix (Error err) "json: unknown fifeld" in
        ErrorString ("body contains unknown key " +:+ fieldName)
      else if String.eqb (Error err) "http: request body too large" then
        ErrorString ("body must not be larger than " +:+ fmt_d maxBytes +:+ " bytes")
      else err
  end.

(** [func (t *Tools) ReadJSON(w http.ResponseWriter, r *http.Request,
    data any) error], on the bytes [Body] of [r.Body]; the first component of
    the result is [data] as the call leaves it. *)
Definition ReadJSON (t : Tools) (Body : string) (data : Dest) : Dest * error :=
  let maxBytes := maxBytes_of t in
  let body := json.MaxBytesReader Body maxBytes in
  let dec := json.NewDecoder body in
  let dec := if negb (AllowUnknownFields t) then json.DisallowUnknownFields dec else dec in
  match json.Decode Unmarshal dec data with
  | ((data, Some err), _) => (data, Some (decode_failure maxBytes err))
  | ((data, None), dec) =>
      match json.Decode Unmarshal_struct0 dec tt with
      | ((_, err), _) =>
          if negb (bool_decide (err = Some EOF))
          then (data, Some (errors.New "body must contain only one JSON value"))
          else (data, None)
      end
  end.

End ReadJSON.

(** The decoder on which [ReadJSON] calls [Decode]. *)
Definition body_decoder (t : Tools) (Body : string) : json.Decoder :=
  let dec := json.NewDecoder (json.MaxBytesReader Body (maxBytes_of t)) in
  if negb (AllowUnknownFields t) then json.DisallowUnknownFields dec else dec.

(** The scanner reaches the end of the bytes [b] without a verdict: they hold
    no syntax error and no complete value. *)
Definition undecided (b : list ascii) : Prop :=
  exists s scanp,
    json.readValue_scan (json.mkScanner json.stateBeginValue false [] None 0) b 0
      = (s, inr scanp).

(** ** Sample inputs

    The values at which the theorems below are run. *)

Module Sample.

(** A world with an empty disk, in which no system call fails, and whose
    random tape holds two 64-bit odd numbers. *)
Definition world : World :=
  mkWorld [Some 18446744073709551557; Some 9223372036854775837] ∅ ∅ (fun _ => None)
    (fun _ => []).

(** The same world with a tape long enough for one file name. *)
Definition world25 : World :=
  mkWorld (replicate 25 (Some 18446744073709551557)) ∅ ∅ (fun _ => None) (fun _ => []).

(** The first bytes of a PNG file, and a short text. *)
Definition png : list byte := [x89; x50; x4e; x47; x0d; x0a; x1a; x0a; x00; x00; x00; x0d].
Definition txt : list byte := [x68; x65; x6c; x6c; x6f].

Definition img_png : FileHeader := mkFileHeader "img.png" png.
Definition notes_txt : FileHeader := mkFileHeader "notes.txt" txt.

(** A request whose body parses to the given file parts. *)
Definition request (parts : list (string * FileHeader)) : Request :=
  mkRequest (fun _ => inr parts).

Definition tools (allowed : list string) : Tools := mkTools 0 allowed 0 false.

(** [d.unmarshal(v)] for a destination [v] of type [*any]: every value is
    stored; here the stored value is its text. *)
Definition Unmarshal_any (disallow : bool) (text : list ascii) (v : string) : string * error :=
  (string_of_list_ascii text, None).

(** [d.unmarshal(v)] of the second call, for a value that the empty struct
    accepts. *)
Definition Unmarshal_struct0 (disallow : bool) (text : list ascii) (v : unit) : unit * error :=
  (tt, None).

(** [d.unmarshal(v)] on an object with the one key [key], for a destination
    struct without a field of that name: the library saves the error
    [fmt.Errorf] builds from [json: unknown field %q] when unknown fields are
    disallowed, and skips the key otherwise. *)
Definition Unmarshal_without (key : string) (disallow : bool) (text : list ascii) (v : unit)
  : unit * error :=
  if disallow then (v, Some (ErrorString ("json: unknown field " +:+ fmt_q key))) else (v, None).

(** The body [{"fooo": "bar"}] of the test table. *)
Definition body_fooo : string :=
  "{" +:+ dquote +:+ "fooo" +:+ dquote +:+ ": " +:+ dquote +:+ "bar" +:+ dquote +:+ "}".

(** The body [{"foo": "bar"}]. *)
Definition body_foo : string :=
  "{" +:+ dquote +:+ "foo" +:+ dquote +:+ ": " +:+ dquote +:+ "bar" +:+ dquote +:+ "}".

(** The error of [ReadJSON] on [body] under the limit [maxJSONSize], for a
    destination of type [*any]. *)
Definition read_error (maxJSONSize : Z) (body : string) : error :=
  (ReadJSON string Unmarshal_any Unmarshal_struct0 (mkTools 0 [] maxJSONSize false) body "").2.

End Sample.

(** ** Notions for the further properties *)

(** The name under which [UploadFiles] stores a part, and the world once the
    name is made: the random source is used when the name is a new one. *)
Definition part_name (renameFile : bool) (fh : FileHeader) (w : World) : string * World :=
  if renameFile
  then let '(s, w1) := RandomString 25 w in (s +:+ filepath.Ext (Filename fh), w1)
  else (Filename fh, w).

(** The buffer that [UploadFiles] hands to [http.DetectContentType] for a part
    with the bytes [data]. *)
Definition sniffed (data : list byte) : list byte :=
  take 512 data ++ replicate (512 - length data) x00.

(** The files on disk after the parts [hs] have been stored, one after the
    other, under their own names in [uploadDir]. *)
Definition stored (uploadDir : string) (files : gmap string (list byte)) (hs : list FileHeader)
  : gmap string (list byte) :=
  foldl (fun m h => <[filepath.Join uploadDir (Filename h) := content h]> m) files hs.

(** What [RandomString] can return for a length [n]: [n] characters of the
    source, or its error text. *)
Definition random_name (n : nat) (s : string) : Prop :=
  s = "RandomString Error" \/
  (String.length s = n /\ Forall (fun c => In c source_runes) (list_ascii_of_string s)).

(** A part that [UploadFiles] takes in when no system call fails: it has
    bytes, and the type of its buffer is allowed. *)
Definition acceptable (DetectContentType : list byte -> string)
    (EqualFold : string -> string -> bool) (t : Tools) (h : FileHeader) : Prop :=
  content h <> [] /\
  type_allowed EqualFold t (DetectContentType (sniffed (content h))) = true.

(** The upload of the parts [parts] into the directory [uploads], with the
    sample detector of content types, in a world [w]. *)
Definition sample_upload (allowed : list string) (parts : list (string * FileHeader))
    (rename : list bool) (keys : list string) (w : World)
  : (list UploadedFile * error) * Tools * World :=
  UploadFiles DetectContentType_magic gostrings.EqualFold_ascii (Sample.tools allowed)
    (Sample.request parts) "uploads" rename keys w.


(** A request whose body the parser of multipart forms refuses. *)
Definition bad_request : Request :=
  mkRequest (fun _ => inl (ErrorString "multipart: NextPart: EOF")).

(** *** The shape of a slug *)

(** A character of a slug: a lower-case letter, a digit or the hyphen. *)
Definition slug_char (c : ascii) : bool := negb (outside_a_z_0_9 c) || Ascii.eqb c "-".

(** No hyphen is followed by a hyphen. *)
Fixpoint no_double_hyphen (l : list ascii) : Prop :=
  match l with
  | c1 :: ((c2 :: _) as rest) => (c1 = "-"%char -> c2 <> "-"%char) /\ no_double_hyphen rest
  | _ => True
  end.

(** A slug has at least one character, only letters, digits and hyphens,
    a hyphen neither at its start nor at its end, and no two hyphens in a
    row. *)
Definition well_formed_slug (slug : string) : Prop :=
  let l := list_ascii_of_string slug in
  l <> [] /\ Forall (fun c => slug_char c = true) l /\
  head l <> Some "-"%char /\ last l <> Some "-"%char /\ no_double_hyphen l.

(** The lower-case letters and the digits of a string, in their order. *)
Definition letters_digits (s : string) : list ascii :=
  List.filter (fun c => negb (outside_a_z_0_9 c)) (list_ascii_of_string s).

(** *** Notions for ReadJSON *)

(** The bytes with which a JSON value may begin. *)
Definition begins_value (c : ascii) : bool :=
  existsb (Ascii.eqb c) ["{"; "["; "034"; "-"; "t"; "f"; "n"]%char || json.between "0" "9" c.

(** The errors a scanner can hold: none, or a [*SyntaxError]. *)
Definition syntax_or_nil (e : error) : Prop :=
  match e with
  | None | Some (SyntaxError _ _) => True
  | Some _ => False
  end.

(** ** net/http: the response writer, and the JSON responses *)

Module http.

(** [http.Header]: the values under each key. *)
Abbreviation Header := (gmap string (list string)).

Definition StatusBadRequest : Z := 400.

(** A call of [WriteHeader], with the header map as it is at the call, or a
    call of [Write]. *)
Inductive call : Type :=
| CallWriteHeader (statusCode : Z) (header : Header)
| CallWrite (data : string).

(** A [http.ResponseWriter] as the methods of this package use it: the map
    that [w.Header()] returns, the calls of [WriteHeader] and of [Write] that
    it has received, the latest last, and the error that its [Write]
    returns. *)
Record ResponseWriter : Type := mkResponseWriter {
  rw_Header : Header;
  rw_calls : list call;
  rw_Write_err : error
}.

Definition with_Header (w : ResponseWriter) (h : Header) : ResponseWriter :=
  mkResponseWriter h (rw_calls w) (rw_Write_err w).

(** [h.Set(key, value)] for a key in canonical form, as [Content-Type] is. *)
Definition Set_ (h : Header) (key value : string) : Header := <[key := [value]]> h.

(** [w.WriteHeader(statusCode)]. *)
Definition WriteHeader (w : ResponseWriter) (statusCode : Z) : ResponseWriter :=
  mkResponseWriter (rw_Header w) (rw_calls w ++ [CallWriteHeader statusCode (rw_Header w)])
    (rw_Write_err w).

(** [w.Write(data)]. *)
Definition Write (w : ResponseWriter) (data : string) : error * ResponseWriter :=
  (rw_Write_err w,
   mkResponseWriter (rw_Header w) (rw_calls w ++ [CallWrite data]) (rw_Write_err w)).

End http.

(** [type JSONResponse struct]; [Data], of type [any], is [None] for
    [nil]. *)
Module JSONResponse.
Record t (Any : Type) : Type := mk {
  Error : bool;
  Message : string;
  Data : option Any
}.
Arguments mk {Any} Error Message Data.
Arguments Error {Any} _.
Arguments Message {Any} _.
Arguments Data {Any} _.
End JSONResponse.

(** [for k, v := range headers[0] { w.Header()[k] = v }], the [range] going
    through the keys of the map in the order [keys]. *)
Fixpoint copy_headers (from : http.Header) (keys : list string) (h : http.Header)
  : http.Header :=
  match keys with
  | [] => h
  | k :: rest =>
      match from !! k with
      | Some v => copy_headers from rest (<[k := v]> h)
      | None => copy_headers from rest h
      end
  end.

(** [func (t *Tools) WriteJSON(w http.ResponseWriter, status int, data any,
    headers ...http.Header) error], given what [json.Marshal] makes of
    [data]; the result carries the writer as the call leaves it. *)
Definition WriteJSON {Data : Type} (Marshal : Data -> go_error + string)
    (w : http.ResponseWriter) (status : Z) (data : Data) (headers : list http.Header)
    (keys : list string) : error * http.ResponseWriter :=
  match Marshal data with
  | inl err => (Some err, w)
  | inr out =>
      let w :=
        match headers with
        | headers0 :: _ => http.with_Header w (copy_headers headers0 keys (http.rw_Header w))
        | [] => w
        end in
      let w := http.with_Header w (http.Set_ (http.rw_Header w) "Content-Type" "application/json") in
      let w := http.WriteHeader w status in
      match http.Write w out with
      | (Some err, w) => (Some err, w)
      | (None, w) => (None, w)
      end
  end.

(** [func (t *Tools) ErrorJSON(w http.ResponseWriter, err error,
    status ...int) error]; [err.Error()] on a [nil] error is a run-time
    panic. *)
Definition ErrorJSON {Any : Type} (Marshal : JSONResponse.t Any -> go_error + string)
    (w : http.ResponseWriter) (err : error) (status : list Z)
  : outcome error * http.ResponseWriter :=
  let statusCode :=
    match status with
    | status0 :: _ => status0
    | [] => http.StatusBadRequest
    end in
  match err with
  | None => (Panics "runtime error: invalid memory address or nil pointer dereference", w)
  | Some err =>
      let payload := JSONResponse.mk true (Error err) None in
      let '(e, w) := WriteJSON Marshal w statusCode payload [] [] in
      (Returns e, w)
  end.

(** [json.Marshal] on a boolean, and on a [JSONResponse] without [Data]
    (which [omitempty] leaves out) whose message has no character that JSON
    escapes other than the quote and the backslash. *)
Definition Marshal_bool (b : bool) : go_error + string :=
  inr (if b then "true" else "false").
Definition Marshal_response (p : JSONResponse.t unit) : go_error + string :=
  inr ("{" +:+ fmt_q "error" +:+ ":" +:+ (if JSONResponse.Error p then "true" else "false")
       +:+ "," +:+ fmt_q "message" +:+ ":" +:+ fmt_q (JSONResponse.Message p) +:+ "}").

(** A writer that has received nothing, with a header of its own. *)
Definition fresh_writer (write_err : error) : http.ResponseWriter :=
  http.mkResponseWriter {["X-Request-Id" := ["7"]; "Content-Type" := ["text/html"]]} []
    write_err.

(** Headers that a caller gives to [WriteJSON]. *)
Definition given_headers : http.Header :=
  <["X-Trace" := ["1"]]> (<["Content-Type" := ["text/plain"]]> ∅).


(** * Theorems *)

(** ** RandomString *)

Lemma Uint64_mod_64 (p : Z) : Uint64 p mod 64 = p mod 64.
Proof.
  unfold Uint64. apply Z.mod_mod_divide.
  exists (2 ^ 58). reflexivity.
Qed.

Lemma odd_mod_64 (p : Z) : Z.odd (p mod 64) = Z.odd p.
Proof.
  rewrite (Z.div_mod p 64) at 2 by lia.
  replace (64 * (p / 64) + p mod 64) with (p mod 64 + 2 * (32 * (p / 64))) by lia.
  now rewrite Z.odd_add_mul_2.
Qed.

(** A prime of 64 bits is odd: the only even prime is 2. *)
Lemma prime_of_bits_64_odd (p : Z) : rand.prime_of_bits 64 p -> Z.odd p = true.
Proof.
  intros [Hp [Hlo _]].
  destruct (Z.odd p) eqn:Hodd; [reflexivity | exfalso].
  assert (Heven : Z.even p = true) by (rewrite <- Z.negb_odd, Hodd; reflexivity).
  apply Z.even_spec in Heven as [k Hk].
  assert (Hdiv : (2 | p)) by (exists k; lia).
  destruct (Z.divide_prime_r 2 p Hp Hdiv) as [H | [H | [H | H]]]; lia.
Qed.

(** Hence a tape of results that [rand.Prime] documents is an odd tape. *)
Lemma prime_tape_odd (w : World) :
  Forall (fun d => forall p, d = Some p -> rand.prime_of_bits 64 p) (rand_Reader w) ->
  rand.odd_tape w.
Proof.
  unfold rand.odd_tape. intros H. eapply Forall_impl; [exact H |].
  intros d Hd p Hp. apply prime_of_bits_64_odd. now apply Hd.
Qed.

Lemma length_source_runes : Z.of_nat (length source_runes) = 64.
Proof. reflexivity. Qed.

(** The index [x % y] never leaves the source. *)
Lemma rune_index_in_range (p : Z) :
  (Z.to_nat (Uint64 p mod Z.of_nat (length source_runes)) < length source_runes)%nat.
Proof.
  rewrite length_source_runes.
  pose proof (Z.mod_pos_bound (Uint64 p) 64 ltac:(lia)).
  change (length source_runes) with 64%nat. lia.
Qed.

Lemma existsb_eqb_In (c : ascii) (l : list ascii) :
  existsb (Ascii.eqb c) l = true <-> In c l.
Proof.
  rewrite existsb_exists. split.
  - intros (x & Hx & Heq). apply Ascii.eqb_eq in Heq. now subst.
  - intros H. exists c. split; [assumption | apply Ascii.eqb_refl].
Qed.

Lemma rune_at_odd (i : Z) :
  0 <= i < 64 -> Z.odd i = true -> In (rune_at i) odd_runes.
Proof.
  intros Hi Hodd.
  assert (Hk : exists k : nat, (k < 32)%nat /\ i = 2 * Z.of_nat k + 1).
  { exists (Z.to_nat (i / 2)). apply Z.odd_spec in Hodd as [q Hq]. subst i.
    pose proof (Z.div_unique (2 * q + 1) 2 q 1 ltac:(lia) ltac:(lia)) as <-.
    split; lia. }
  destruct Hk as (k & Hk & ->).
  apply existsb_eqb_In.
  do 32 (destruct k as [|k]; [reflexivity |]). lia.
Qed.

Lemma rand_Prime_tape (w w' : World) (p : Z) :
  rand.Prime 64 w = (inr p, w') ->
  exists tape, rand_Reader w = Some p :: tape /\ rand_Reader w' = tape.
Proof.
  unfold rand.Prime. simpl. destruct (rand_Reader w) as [|[q|] tape]; try discriminate.
  intros [= <- <-]. now exists tape.
Qed.

Lemma RandomString_loop_spec (n : nat) :
  forall (w w' : World) (s : list ascii),
    rand.odd_tape w ->
    RandomString_loop n w = (Some s, w') ->
    length s = n /\ Forall (fun c => In c odd_runes) s /\ rand.odd_tape w'.
Proof.
  induction n as [|n IH]; intros w w' s Hw Hrun.
  - injection Hrun as <- <-. auto.
  - cbn [RandomString_loop] in Hrun. rewrite length_source_runes in Hrun.
    destruct (rand.Prime 64 w) as [[e | p] w1] eqn:Hp; [discriminate |].
    destruct (RandomString_loop n w1) as [[s1 |] w2] eqn:Hrest; [| discriminate].
    injection Hrun as <- <-.
    destruct (rand_Prime_tape _ _ _ Hp) as (tape & Htape & Htape').
    unfold rand.odd_tape in Hw. rewrite Htape in Hw. inversion Hw as [| d l Hd Hl]; subst d l.
    assert (Hw1 : rand.odd_tape w1) by (unfold rand.odd_tape; now rewrite Htape').
    destruct (IH w1 w2 s1 Hw1 Hrest) as (Hlen & Hall & Hw2).
    repeat split; [simpl; now rewrite Hlen | | exact Hw2].
    constructor; [| exact Hall].
    apply rune_at_odd.
    + apply Z.mod_pos_bound. lia.
    + rewrite Uint64_mod_64, odd_mod_64. now apply Hd.
Qed.

(** C3 (code defect).  Whatever [rand.Prime] draws, [RandomString] indexes the
    source with an odd number: when no draw fails, the result has exactly [n]
    characters, each of them among the 32 characters at the odd positions of
    the 64-character source; the character [a], like every character at an
    even position, never occurs.  A draw over the whole alphabet is therefore
    not what the code performs. *)
Theorem RandomString_odd_positions (n : nat) (w w' : World) (s : list ascii) :
  rand.odd_tape w ->
  RandomString_loop n w = (Some s, w') ->
  RandomString n w = (string_of_list_ascii s, w') /\
  String.length (RandomString n w).1 = n /\
  Forall (fun c => In c odd_runes) s /\
  ~ In "a"%char s.
Proof.
  intros Hw Hrun.
  destruct (RandomString_loop_spec n w w' s Hw Hrun) as (Hlen & Hall & _).
  unfold RandomString. rewrite Hrun. cbn [fst].
  repeat split; try assumption.
  - rewrite <- Hlen. clear. induction s as [|c s IH]; simpl; congruence.
  - intros Ha. rewrite Forall_forall in Hall. apply list_elem_of_In in Ha.
    specialize (Hall _ Ha).
    apply existsb_eqb_In in Hall. discriminate Hall.
Qed.

Lemma RandomString_odd_positions_witness :
  RandomString 2 Sample.world = ("fD", with_rand Sample.world []) /\
  String.length (RandomString 2 Sample.world).1 = 2%nat /\
  Forall (fun c => In c odd_runes) ["f"; "D"]%char /\
  ~ In "a"%char ["f"; "D"]%char.
Proof.
  apply (RandomString_odd_positions 2 Sample.world (with_rand Sample.world []) ["f"; "D"]%char).
  - repeat constructor; intros p [= <-]; reflexivity.
  - reflexivity.
Defined.

(** ** Slugify *)

(** The expression [[^a-z\d]+] accepts the characters outside [[a-z0-9]]. *)
Lemma class_match_outside (c : ascii) :
  regexp.class_match (regexp.mkRegexp [("a", "z"); ("0", "9")]%char) c = outside_a_z_0_9 c.
Proof.
  unfold regexp.class_match, regexp.in_range, outside_a_z_0_9. cbn.
  now rewrite orb_false_r.
Qed.

Section Runs.
Context {A : Type} (p : A -> bool).

(** The runs are consecutive pieces of the list ... *)
Lemma maximal_runs_concat (l : list A) : concat (map snd (maximal_runs p l)) = l.
Proof.
  induction l as [|c l IH]; [reflexivity |].
  cbn [maximal_runs]. destruct (maximal_runs p l) as [|[b run] runs].
  - simpl in IH. subst l. reflexivity.
  - destruct (Bool.eqb (p c) b); simpl in *; now rewrite IH.
Qed.

(** ... none is empty, and [p] has the recorded value all over a run ... *)
Lemma maximal_runs_uniform (l : list A) :
  Forall (fun r : bool * list A => r.2 <> [] /\ Forall (fun c => p c = r.1) r.2)
         (maximal_runs p l).
Proof.
  induction l as [|c l IH]; [constructor |].
  cbn [maximal_runs]. destruct (maximal_runs p l) as [|[b run] runs].
  - repeat constructor. discriminate.
  - inversion IH as [|r rs [Hne Hrun] Hrest]; subst.
    destruct (Bool.eqb (p c) b) eqn:Heq.
    + apply Bool.eqb_prop in Heq. constructor; [| assumption].
      split; [discriminate | now constructor].
    + constructor; [| assumption]. split; [discriminate | now repeat constructor].
Qed.

(** ... and [p] changes its value from each run to the next: the runs are
    maximal. *)
Lemma maximal_runs_alternating (l : list A) : alternating (maximal_runs p l).
Proof.
  induction l as [|c l IH]; [exact I |].
  cbn [maximal_runs]. destruct (maximal_runs p l) as [|[b run] runs]; [exact I |].
  destruct (Bool.eqb (p c) b) eqn:Heq.
  - destruct runs; [exact I |]. exact IH.
  - split; [| exact IH]. simpl. intros E. rewrite E in Heq.
    now rewrite Bool.eqb_reflx in Heq.
Qed.


End Runs.




Lemma TrimLeft_hyphen (l : list ascii) :
  gostrings.TrimLeft_list ["-"%char] l = strip_leading_hyphens l.
Proof.
  induction l as [|c l IH]; [reflexivity |].
  cbn. rewrite orb_false_r. now destruct (Ascii.eqb c "-").
Qed.

Lemma strip_leading_snoc (l : list ascii) (c : ascii) :
  strip_leading_hyphens (l ++ [c]) =
    match strip_leading_hyphens l with
    | [] => if Ascii.eqb c "-" then [] else [c]
    | kept => kept ++ [c]
    end.
Proof.
  induction l as [|d l IH]; [reflexivity |].
  cbn. destruct (Ascii.eqb d "-"); [exact IH | reflexivity].
Qed.

Lemma TrimRight_hyphen (l : list ascii) :
  gostrings.TrimRight_list ["-"%char] l = strip_trailing_hyphens l.
Proof.
  unfold gostrings.TrimRight_list. rewrite TrimLeft_hyphen.
  induction l as [|c l IH]; [reflexivity |].
  cbn [rev strip_trailing_hyphens]. rewrite strip_leading_snoc, <- IH.
  destruct (strip_leading_hyphens (rev l)) as [|d kept] eqn:Hk.
  - simpl. now destruct (Ascii.eqb c "-").
  - rewrite rev_app_distr. simpl.
    destruct (rev kept ++ [d]) eqn:Hr; [now destruct (rev kept) | reflexivity].
Qed.

Lemma length_string_of_list_ascii (l : list ascii) :
  String.length (string_of_list_ascii l) = length l.
Proof. induction l as [|c l IH]; simpl; congruence. Qed.


(** ** The upload methods *)

Lemma renameFile_of_singleton (rename : list bool) :
  renameFile_of [renameFile_of rename] = renameFile_of rename.
Proof. reflexivity. Qed.

Lemma MaxFileSize_default (t : Tools) : MaxFileSize (default_MaxFileSize t) = maxMemory t.
Proof. unfold default_MaxFileSize, maxMemory. now destruct (MaxFileSize t =? 0). Qed.

(** *** The map of the form *)

Lemma add_part_lookup (m : gmap string (list FileHeader)) (p : string * FileHeader) (k : string) :
  default [] (multipart.add_part m p !! k) =
    default [] (m !! k) ++ (if decide (p.1 = k) then [p.2] else []).
Proof.
  unfold multipart.add_part. destruct (decide (p.1 = k)) as [<- | Hne].
  - now rewrite lookup_insert_eq.
  - rewrite lookup_insert_ne by exact Hne. now rewrite app_nil_r.
Qed.

Lemma foldl_add_part_lookup (parts : list (string * FileHeader)) :
  forall (m : gmap string (list FileHeader)) (k : string),
    default [] (foldl multipart.add_part m parts !! k) =
      default [] (m !! k) ++ field_parts k parts.
Proof.
  induction parts as [|p parts IH]; intros m k.
  - unfold field_parts. simpl. now rewrite app_nil_r.
  - cbn [foldl]. rewrite IH, add_part_lookup. unfold field_parts.
    rewrite filter_cons. destruct (decide (p.1 = k)); simpl.
    + now rewrite <- app_assoc.
    + now rewrite app_nil_r.
Qed.

(** Under each field name the map holds the parts of that field, in the order
    of the body. *)
Lemma form_File_lookup (parts : list (string * FileHeader)) (k : string) :
  default [] (multipart.form_File parts !! k) = field_parts k parts.
Proof. unfold multipart.form_File. now rewrite foldl_add_part_lookup, lookup_empty. Qed.

Lemma foldl_add_part_is_Some (parts : list (string * FileHeader)) :
  forall (m : gmap string (list FileHeader)) (k : string),
    is_Some (foldl multipart.add_part m parts !! k) <->
    is_Some (m !! k) \/ k ∈ map fst parts.
Proof.
  induction parts as [|p parts IH]; intros m k.
  - simpl. rewrite elem_of_nil. tauto.
  - cbn [foldl map]. rewrite IH, elem_of_cons. unfold multipart.add_part.
    destruct (decide (p.1 = k)) as [<- | Hne].
    + rewrite lookup_insert_eq. split; [auto | intros _; left; eauto].
    + rewrite lookup_insert_ne by exact Hne. split; [tauto |].
      intros [H | [H | H]]; [tauto | congruence | tauto].
Qed.

(** The keys of the map are the field names of the body. *)
Lemma form_File_keys (parts : list (string * FileHeader)) (k : string) :
  is_Some (multipart.form_File parts !! k) <-> k ∈ map fst parts.
Proof.
  unfold multipart.form_File. rewrite foldl_add_part_is_Some, lookup_empty.
  split; [intros [[? [=]] | H]; exact H | auto].
Qed.

Lemma field_parts_all (k : string) (parts : list (string * FileHeader)) :
  (forall p, p ∈ parts -> p.1 = k) -> field_parts k parts = map snd parts.
Proof.
  intros Hall. unfold field_parts. f_equal.
  induction parts as [|p parts IH]; [reflexivity |].
  rewrite filter_cons. destruct (decide (p.1 = k)) as [_ | Hne].
  - f_equal. apply IH. intros q Hq. apply Hall. now right.
  - exfalso. apply Hne, Hall. left.
Qed.

Lemma field_parts_filter_ne (k k' : string) (parts : list (string * FileHeader)) :
  k' <> k ->
  field_parts k' (filter (fun p => p.1 <> k) parts) = field_parts k' parts.
Proof.
  intros Hne. unfold field_parts. f_equal.
  induction parts as [|p parts IH]; [reflexivity |].
  rewrite !filter_cons. destruct (decide (p.1 <> k)) as [Hp | Hp].
  - rewrite filter_cons. destruct (decide (p.1 = k')); now rewrite IH.
  - destruct (decide (p.1 = k')) as [He | He]; [| exact IH].
    exfalso. apply Hp. congruence.
Qed.

Lemma visited_filter_ne (k : string) (keys : list string) (parts : list (string * FileHeader)) :
  k ∉ keys ->
  visited (filter (fun p => p.1 <> k) parts) keys = visited parts keys.
Proof.
  intros Hk. unfold visited. induction keys as [|k' keys IH]; [reflexivity |].
  cbn [flat_map]. rewrite not_elem_of_cons in Hk. destruct Hk as [Hne Hk].
  rewrite field_parts_filter_ne by congruence. now rewrite IH.
Qed.

(** Whatever the order of the keys, the two loops come to every part of the
    body once. *)
Lemma visited_Permutation (keys : list string) :
  forall parts : list (string * FileHeader),
    NoDup keys -> (forall k, k ∈ keys <-> k ∈ map fst parts) ->
    visited parts keys ≡ₚ map snd parts.
Proof.
  induction keys as [|k keys IH]; intros parts Hnd Hkeys.
  - destruct parts as [|p parts]; [reflexivity |].
    exfalso. apply (not_elem_of_nil p.1), Hkeys. simpl. left.
  - apply NoDup_cons in Hnd as [Hk Hnd].
    change (visited parts (k :: keys)) with (field_parts k parts ++ visited parts keys).
    rewrite <- (visited_filter_ne k keys parts Hk).
    rewrite (IH (filter (fun p => p.1 <> k) parts) Hnd).
    + unfold field_parts. rewrite <- map_app. apply Permutation_map.
      apply filter_app_complement.
    + intros k'. rewrite list_elem_of_fmap. split.
      * intros Hk'. assert (k' ∈ map fst parts) as Hin
          by (apply Hkeys; now right).
        apply list_elem_of_fmap in Hin as (p & -> & Hp).
        exists p. split; [reflexivity |]. apply list_elem_of_filter. split; [| exact Hp].
        intros E. rewrite E in Hk'. contradiction.
      * intros (p & -> & Hp). apply list_elem_of_filter in Hp as [Hne Hp].
        assert (p.1 ∈ k :: keys) as Hin
          by (apply Hkeys, list_elem_of_fmap; now exists p).
        apply elem_of_cons in Hin as [? | ?]; [contradiction | assumption].
Qed.

(** *** One part *)

Lemma Read_first (f : File) (buff : list byte) :
  buff <> [] ->
  multipart.Read f buff =
    match drop (pos f) (file_data f) with
    | [] => ((buff, 0, Some EOF), f)
    | rest =>
        let n := Nat.min (length buff) (length rest) in
        ((take n rest ++ drop n buff, Z.of_nat n, None),
         mkFile (file_name f) (file_data f) (pos f + n))
    end.
Proof.
  intros Hb. unfold multipart.Read.
  destruct (drop (pos f) (file_data f)), buff; try reflexivity; contradiction.
Qed.

(** What [Read] leaves in a buffer of 512 zero bytes: the first bytes of the
    part, and zero bytes up to the length of the buffer. *)
Lemma Read_zero_buffer (data : list byte) :
  data <> [] ->
  let n := Nat.min (length (replicate 512 x00)) (length data) in
  take n data ++ drop n (replicate 512 x00) =
    take 512 data ++ replicate (512 - length data) x00.
Proof.
  intros _ n. subst n. rewrite length_replicate, drop_replicate.
  destruct (Nat.le_gt_cases 512 (length data)) as [Hle | Hgt].
  - rewrite Nat.min_l by exact Hle. now replace (512 - length data)%nat with 0%nat by lia.
  - rewrite Nat.min_r by lia. f_equal. rewrite !take_ge by lia. reflexivity.
Qed.

Lemma RandomString_world (n : nat) :
  forall (w w' : World) (s : string),
    RandomString n w = (s, w') ->
    fs_files w' = fs_files w /\ fs_dirs w' = fs_dirs w /\ os_fault w' = os_fault w.
Proof.
  assert (Hloop : forall (m : nat) (w w' : World) (r : option (list ascii)),
             RandomString_loop m w = (r, w') ->
             fs_files w' = fs_files w /\ fs_dirs w' = fs_dirs w /\ os_fault w' = os_fault w).
  { induction m as [|m IH]; intros w w' r Hrun.
    - injection Hrun as <- <-. auto.
    - cbn [RandomString_loop] in Hrun. rewrite length_source_runes in Hrun.
      assert (Hp : forall x w1, rand.Prime 64 w = (x, w1) ->
                fs_files w1 = fs_files w /\ fs_dirs w1 = fs_dirs w /\ os_fault w1 = os_fault w).
      { unfold rand.Prime. simpl. intros x w1.
        destruct (rand_Reader w) as [|[q|] tape]; intros [= <- <-]; auto. }
      destruct (rand.Prime 64 w) as [[e | p] w1] eqn:Hprime.
      + injection Hrun as <- <-. eapply Hp; eauto.
      + destruct (Hp _ _ eq_refl) as (Hf & Hd & Ho).
        destruct (RandomString_loop m w1) as [[s1 |] w2] eqn:Hrest;
          injection Hrun as <- <-;
          destruct (IH _ _ _ Hrest) as (Hf' & Hd' & Ho'); repeat split; congruence. }
  intros w w' s. unfold RandomString.
  destruct (RandomString_loop n w) as [[l |] w1] eqn:Hrun; intros [= <- <-]; eauto.
Qed.

(** The shape of what the function literal returns, and what it does to the
    disk. *)
Lemma upload_part_result DetectContentType EqualFold (t : Tools) (uploadDir : string)
    (renameFile : bool) (fh : FileHeader) (ufs res : list UploadedFile) (e : error)
    (w w' : World) :
  upload_part DetectContentType EqualFold t uploadDir renameFile fh ufs w = ((res, e), w') ->
  match e with
  | Some _ => res = []
  | None =>
      exists u, res = ufs ++ [u] /\ record_info u = part_info fh /\
                NewFileName u =
                  (if renameFile
                   then (RandomString 25 w).1 +:+ filepath.Ext (Filename fh)
                   else Filename fh) /\
                fs_files w' !! filepath.Join uploadDir (NewFileName u) = Some (content fh)
  end /\
  (forall path, is_Some (fs_files w !! path) -> is_Some (fs_files w' !! path)) /\
  os_fault w' = os_fault w.
Proof.
  unfold upload_part, multipart.Open, multipart.Seek_start.
  destruct (os_fault w (SysOpen (Filename fh))) as [eo |]; [intros [= <- <- <-]; auto |].
  rewrite Read_first by discriminate. cbn [pos file_data file_name]. rewrite drop_0.
  destruct (content fh) as [|b data] eqn:Hdata; [intros [= <- <- <-]; auto |].
  cbv beta iota zeta. cbn [pos file_data file_name].
  destruct (negb (type_allowed EqualFold t _)); [intros [= <- <- <-]; auto |].
  destruct (os_fault w (SysSeek (Filename fh))) as [es |]; [intros [= <- <- <-]; auto |].
  set (named := if renameFile then _ else _).
  assert (Hnamed : named.1 = (if renameFile
                              then (RandomString 25 w).1 +:+ filepath.Ext (Filename fh)
                              else Filename fh) /\
                   fs_files named.2 = fs_files w /\ os_fault named.2 = os_fault w).
  { subst named. destruct renameFile; [| auto].
    destruct (RandomString 25 w) as [s w1] eqn:Hrs.
    destruct (RandomString_world _ _ _ _ Hrs) as (Hf & _ & Ho). auto. }
  destruct named as [newFileName w1]. cbn [fst snd] in Hnamed.
  destruct Hnamed as (Hname & Hfiles & Hfault).
  unfold gos.Create, gos.Copy. rewrite Hfault.
  destruct (os_fault w (SysCreate _)) as [ec |].
  { intros [= <- <- <-]. rewrite Hfiles. auto. }
  cbn [os_fault with_file].
  rewrite Hfault.
  destruct (os_fault w (SysCopy _)) as [ecp |].
  { intros [= <- <- <-]. cbn [fs_files with_file os_fault]. rewrite Hfiles.
    repeat split; [| exact Hfault]. intros path Hpath.
    destruct (decide (filepath.Join uploadDir newFileName = path)) as [<- | Hne].
    - rewrite lookup_insert_eq. eauto.
    - now rewrite lookup_insert_ne. }
  intros [= <- <- <-]. cbn [fs_files with_file os_fault pos file_data].
  repeat split; [| | exact Hfault].
  - eexists. split; [reflexivity |]. cbn [NewFileName].
    split; [unfold record_info, part_info; cbn [OriginalFileName FileSize]; now rewrite Hdata |].
    split; [exact Hname |]. now rewrite lookup_insert_eq.
  - intros path Hpath. rewrite Hfiles.
    destruct (decide (filepath.Join uploadDir newFileName = path)) as [<- | Hne].
    + rewrite lookup_insert_eq. eauto.
    + rewrite lookup_insert_ne by exact Hne.
      destruct (decide (filepath.Join uploadDir newFileName = path)) as [<- | Hne'].
      * rewrite lookup_insert_eq. eauto.
      * now rewrite lookup_insert_ne.
Qed.

(** *** The two loops *)

Section Loops.
Variable DetectContentType : list byte -> string.
Variable EqualFold : string -> string -> bool.
Variables (t : Tools) (uploadDir : string) (renameFile : bool).

Lemma upload_headers_result (hs : list FileHeader) :
  forall (ufs res : list UploadedFile) (e : error) (w w' : World),
    upload_headers DetectContentType EqualFold t uploadDir renameFile hs ufs w = ((res, e), w') ->
    loop_result uploadDir renameFile hs ufs res e w w'.
Proof.
  induction hs as [|h hs IH]; intros ufs res e w w' Hrun.
  - injection Hrun as <- <- <-. repeat split; auto. exists []. rewrite app_nil_r. auto.
  - cbn [upload_headers] in Hrun.
    destruct (upload_part _ _ _ _ _ h ufs w) as [[res1 [e1 |]] w1] eqn:Hpart;
      apply upload_part_result in Hpart as (Hres & Hdisk & Hfault).
    + injection Hrun as <- <- <-. repeat split; assumption.
    + destruct Hres as (u & -> & Hinfo & Hname & Hfile).
      apply IH in Hrun as (Hrest & Hdisk' & Hfault').
      repeat split; [| auto | congruence].
      destruct e; [exact Hrest |].
      destruct Hrest as (us & -> & Hinfos & Hnames & Hfiles).
      exists (u :: us). rewrite <- app_assoc. split; [reflexivity |].
      split; [simpl; congruence |]. split.
      * intros Hrn. simpl. rewrite Hnames by exact Hrn. rewrite Hname, Hrn. reflexivity.
      * constructor; [| exact Hfiles]. apply Hdisk'. unfold on_disk. rewrite Hfile. eauto.
Qed.

(** Going through a list of parts in two pieces. *)
Lemma upload_headers_app (hs1 hs2 : list FileHeader) :
  forall (ufs : list UploadedFile) (w : World),
    upload_headers DetectContentType EqualFold t uploadDir renameFile (hs1 ++ hs2) ufs w =
    match upload_headers DetectContentType EqualFold t uploadDir renameFile hs1 ufs w with
    | ((res, Some err), w1) => ((res, Some err), w1)
    | ((res, None), w1) =>
        upload_headers DetectContentType EqualFold t uploadDir renameFile hs2 res w1
    end.
Proof.
  induction hs1 as [|h hs1 IH]; intros ufs w; [reflexivity |].
  cbn [app upload_headers].
  destruct (upload_part _ _ _ _ _ h ufs w) as [[res1 [e1 |]] w1]; [reflexivity | apply IH].
Qed.

(** The two nested loops are one loop over the parts of the fields, field
    after field in the order of the keys. *)
Lemma upload_fields_flat (form : gmap string (list FileHeader)) (keys : list string) :
  forall (ufs : list UploadedFile) (w : World),
    upload_fields DetectContentType EqualFold t uploadDir renameFile form keys ufs w =
    upload_headers DetectContentType EqualFold t uploadDir renameFile
      (flat_map (fun k => default [] (form !! k)) keys) ufs w.
Proof.
  induction keys as [|k keys IH]; intros ufs w; [reflexivity |].
  cbn [upload_fields flat_map]. rewrite upload_headers_app.
  destruct (upload_headers _ _ _ _ _ _ ufs w) as [[res1 [e1 |]] w1]; [reflexivity |].
  apply IH.
Qed.

End Loops.

(** Making directories leaves the files, the faults and the random source as
    they are. *)
Lemma foldl_with_dir_fields (dirs : list string) :
  forall w : World,
    fs_files (foldl with_dir w dirs) = fs_files w /\
    os_fault (foldl with_dir w dirs) = os_fault w /\
    rand_Reader (foldl with_dir w dirs) = rand_Reader w.
Proof.
  induction dirs as [|d dirs IH]; intros w; [auto |].
  cbn [foldl]. destruct (IH (with_dir w d)) as (-> & -> & ->). auto.
Qed.

Lemma CreateDirIfNotExist_files (path : string) (w w' : World) (e : error) :
  CreateDirIfNotExist path w = (e, w') ->
  fs_files w' = fs_files w /\ os_fault w' = os_fault w /\ rand_Reader w' = rand_Reader w.
Proof.
  unfold CreateDirIfNotExist, gos.MkdirAll.
  destruct (gos.Stat_IsNotExist path w); [| intros [= <- <-]; auto].
  destruct (foldl_with_dir_fields (os_made w path) w) as (Hf & Ho & Hr).
  destruct (os_fault _ (SysMkdirAll path)); intros [= <- <-]; cbn [with_dir fs_files os_fault rand_Reader]; auto.
Qed.

(** [UploadFiles], one statement after the other. *)
Lemma UploadFiles_unfold DetectContentType EqualFold (t : Tools) (r : Request)
    (uploadDir : string) (rename : list bool) (keys : list string) (w : World) :
  UploadFiles DetectContentType EqualFold t r uploadDir rename keys w =
    match CreateDirIfNotExist uploadDir w with
    | (Some err, w1) => (([], Some err), default_MaxFileSize t, w1)
    | (None, w1) =>
        match ParseMultipartForm r (maxMemory t) with
        | inl _ =>
            (([], Some (ErrorString "the uploaded file is too big")), default_MaxFileSize t, w1)
        | inr parts =>
            let run := upload_fields DetectContentType EqualFold (default_MaxFileSize t)
                         uploadDir (renameFile_of rename) (multipart.form_File parts)
                         keys [] w1 in
            (run.1, default_MaxFileSize t, run.2)
        end
    end.
Proof.
  unfold UploadFiles. rewrite MaxFileSize_default.
  destruct (CreateDirIfNotExist uploadDir w) as [[e |] w1]; [reflexivity |].
  destruct (ParseMultipartForm r (maxMemory t)); [reflexivity |].
  now destruct (upload_fields _ _ _ _ _ _ _ _ _) as [res w2].
Qed.

(** *** UploadFiles *)

Section UploadTheorems.
Variable DetectContentType : list byte -> string.
Variable EqualFold : string -> string -> bool.

Lemma visited_form_File (parts : list (string * FileHeader)) (keys : list string) :
  flat_map (fun k => default [] (multipart.form_File parts !! k)) keys = visited parts keys.
Proof.
  unfold visited. induction keys as [|k keys IH]; [reflexivity |].
  cbn [flat_map]. now rewrite form_File_lookup, IH.
Qed.

(** Once the directory is there and the body is parsed, [UploadFiles] is the
    loop over the parts in the order [visited]. *)
Lemma UploadFiles_visits (t : Tools) (r : Request) (uploadDir : string) (rename : list bool)
    (keys : list string) (w w1 : World) (parts : list (string * FileHeader)) :
  CreateDirIfNotExist uploadDir w = (None, w1) ->
  ParseMultipartForm r (maxMemory t) = inr parts ->
  UploadFiles DetectContentType EqualFold t r uploadDir rename keys w =
    let run := upload_headers DetectContentType EqualFold (default_MaxFileSize t) uploadDir
                 (renameFile_of rename) (visited parts keys) [] w1 in
    (run.1, default_MaxFileSize t, run.2).
Proof.
  intros Hdir Hparse. rewrite UploadFiles_unfold, Hdir, Hparse.
  now rewrite upload_fields_flat, visited_form_File.
Qed.

(** What [UploadFiles] returns, case by case. *)
Lemma UploadFiles_result (t t' : Tools) (r : Request) (uploadDir : string) (rename : list bool)
    (keys : list string) (w w' : World) (files : list UploadedFile) (e : error) :
  UploadFiles DetectContentType EqualFold t r uploadDir rename keys w = ((files, e), t', w') ->
  t' = default_MaxFileSize t /\
  (forall path, is_Some (fs_files w !! path) -> is_Some (fs_files w' !! path)) /\
  match e with
  | Some _ => files = []
  | None =>
      exists parts, ParseMultipartForm r (maxMemory t) = inr parts /\
                    map record_info files = map part_info (visited parts keys) /\
                    Forall (on_disk uploadDir w') files
  end.
Proof.
  rewrite UploadFiles_unfold.
  destruct (CreateDirIfNotExist uploadDir w) as [[ed |] w1] eqn:Hdir;
    apply CreateDirIfNotExist_files in Hdir as (Hfiles & _).
  { intros [= <- <- <- <-]. rewrite Hfiles. auto. }
  destruct (ParseMultipartForm r (maxMemory t)) as [ep | parts].
  { intros [= <- <- <- <-]. rewrite Hfiles. auto. }
  rewrite upload_fields_flat, visited_form_File. cbv zeta.
  destruct (upload_headers _ _ _ _ _ _ _ _) as [[res e1] w2] eqn:Hrun.
  intros [= <- <- <- <-].
  apply upload_headers_result in Hrun as (Hres & Hdisk & _).
  split; [reflexivity |]. split; [intros path; rewrite <- Hfiles; apply Hdisk |].
  destruct e1; [exact Hres |].
  destruct Hres as (us & -> & Hinfo & _ & Hon). exists parts. auto.
Qed.

(** C1 (amended).  When the parts that come first are accepted and written
    and a later part fails, [UploadFiles] stops at that part and returns its
    error, the first one met, together with an empty list: the records of the
    earlier parts are dropped, although their files stay on disk. *)
Theorem UploadFiles_partial_failure (t : Tools) (r : Request) (uploadDir : string)
    (rename : list bool) (keys : list string) (w w1 w2 w3 : World)
    (parts : list (string * FileHeader)) (hs1 hs2 : list FileHeader) (h : FileHeader)
    (ufs1 res : list UploadedFile) (e : go_error) :
  CreateDirIfNotExist uploadDir w = (None, w1) ->
  ParseMultipartForm r (maxMemory t) = inr parts ->
  visited parts keys = hs1 ++ h :: hs2 ->
  upload_headers DetectContentType EqualFold (default_MaxFileSize t) uploadDir
    (renameFile_of rename) hs1 [] w1 = ((ufs1, None), w2) ->
  upload_part DetectContentType EqualFold (default_MaxFileSize t) uploadDir
    (renameFile_of rename) h ufs1 w2 = ((res, Some e), w3) ->
  UploadFiles DetectContentType EqualFold t r uploadDir rename keys w
    = (([], Some e), default_MaxFileSize t, w3) /\
  map record_info ufs1 = map part_info hs1 /\
  Forall (on_disk uploadDir w3) ufs1.
Proof.
  intros Hdir Hparse Hvisit Hfirst Hfail.
  rewrite (UploadFiles_visits _ _ _ _ _ _ _ _ Hdir Hparse), Hvisit, upload_headers_app, Hfirst.
  cbn [upload_headers]. rewrite Hfail.
  apply upload_part_result in Hfail as (-> & Hdisk & _).
  apply upload_headers_result in Hfirst as ((us & Hus & Hinfo & _ & Hon) & _ & _).
  simpl in Hus. subst us. repeat split; [assumption |].
  eapply Forall_impl; [exact Hon |]. intros u. apply Hdisk.
Qed.

(** C4 (amended).  When [UploadFiles] succeeds, its list has one record for
    each file part of the body and each part has one record; the records
    follow the order in which the [range] over the map comes to the form
    fields and, within one field, the order of the body.  When the body has
    one field only, that is the order of the body.  When [UploadFiles] fails,
    its list is empty. *)
Theorem UploadFiles_records_follow_visit_order (t t' : Tools) (r : Request)
    (uploadDir : string) (rename : list bool) (keys : list string) (w w' : World)
    (parts : list (string * FileHeader)) (files : list UploadedFile) (e : error) :
  ParseMultipartForm r (maxMemory t) = inr parts ->
  range_order (multipart.form_File parts) keys ->
  UploadFiles DetectContentType EqualFold t r uploadDir rename keys w = ((files, e), t', w') ->
  match e with
  | None =>
      map record_info files = map part_info (visited parts keys) /\
      Forall (on_disk uploadDir w') files
  | Some _ => files = []
  end /\
  visited parts keys ≡ₚ map snd parts /\
  (forall k, keys = [k] -> visited parts keys = map snd parts).
Proof.
  intros Hparse [Hnd Hkeys] Hrun.
  assert (Hfields : forall k, k ∈ keys <-> k ∈ map fst parts)
    by (intros k; rewrite Hkeys; apply form_File_keys).
  split; [| split].
  - apply UploadFiles_result in Hrun as (_ & _ & Hres).
    destruct e; [exact Hres |].
    destruct Hres as (parts' & Hparse' & Hinfo & Hon).
    rewrite Hparse in Hparse'. injection Hparse' as <-. auto.
  - now apply visited_Permutation.
  - intros k ->. unfold visited. cbn [flat_map].
    rewrite app_nil_r. apply field_parts_all.
    intros p Hp. assert (p.1 ∈ [k]) as Hin
      by (apply Hfields, list_elem_of_fmap; now exists p).
    now apply list_elem_of_singleton in Hin.
Qed.

Lemma UploadFiles_rename (t : Tools) (r : Request) (uploadDir : string) (rename : list bool)
    (keys : list string) (w : World) :
  UploadFiles DetectContentType EqualFold t r uploadDir [renameFile_of rename] keys w =
  UploadFiles DetectContentType EqualFold t r uploadDir rename keys w.
Proof. reflexivity. Qed.

(** C2.  When the directory is there and the body parses to no file part,
    [UploadOneFile] reads element 0 of an empty slice: it panics with an
    index out of range and returns no error value.  When the body has file
    parts and all are taken in, it returns the first record of the list of
    [UploadFiles]. *)
Theorem UploadOneFile_first_or_panic (t : Tools) (r : Request) (uploadDir : string)
    (rename : list bool) (keys : list string) (w : World) :
  ((CreateDirIfNotExist uploadDir w).1 = None ->
   ParseMultipartForm r (maxMemory t) = inr [] ->
   (UploadOneFile DetectContentType EqualFold t r uploadDir rename keys w).1.1
     = Panics "runtime error: index out of range [0] with length 0") /\
  (forall (parts : list (string * FileHeader)) (files : list UploadedFile) (t' : Tools)
          (w' : World),
      ParseMultipartForm r (maxMemory t) = inr parts -> parts <> [] ->
      range_order (multipart.form_File parts) keys ->
      UploadFiles DetectContentType EqualFold t r uploadDir rename keys w
        = ((files, None), t', w') ->
      exists file0 rest,
        files = file0 :: rest /\
        UploadOneFile DetectContentType EqualFold t r uploadDir rename keys w
          = (Returns (Some file0, None), t', w')).
Proof.
  split.
  - intros Hdir Hparse. unfold UploadOneFile. rewrite UploadFiles_rename.
    destruct (CreateDirIfNotExist uploadDir w) as [ed w1] eqn:Hd. simpl in Hdir. subst ed.
    rewrite (UploadFiles_visits _ _ _ _ _ _ _ _ Hd Hparse).
    replace (visited [] keys) with (@nil FileHeader); [reflexivity |].
    unfold visited. induction keys as [|k ks IH]; [reflexivity | exact IH].
  - intros parts files t' w' Hparse Hne Horder Hrun.
    destruct files as [|file0 rest].
    + exfalso. apply Hne.
      apply UploadFiles_result in Hrun as (_ & _ & (parts' & Hparse' & Hinfo & _)).
      rewrite Hparse in Hparse'. injection Hparse' as <-.
      destruct Horder as [Hnd Hkeys].
      assert (Hperm : visited parts keys ≡ₚ map snd parts).
      { apply visited_Permutation; [exact Hnd |].
        intros k. rewrite Hkeys. apply form_File_keys. }
      symmetry in Hinfo. apply map_eq_nil in Hinfo.
      rewrite Hinfo in Hperm. apply Permutation_nil_l in Hperm.
      symmetry in Hperm. now apply map_eq_nil in Hperm.
    + exists file0, rest. split; [reflexivity |].
      unfold UploadOneFile. now rewrite UploadFiles_rename, Hrun.
Qed.

(** C10.  [UploadFiles], and [UploadOneFile] through it, store 1 GiB in a
    [MaxFileSize] that is 0 and leave the other fields of the receiver as
    they are; a later call on the receiver finds the stored value and changes
    nothing. *)
Theorem UploadFiles_stores_MaxFileSize (t : Tools) (r : Request) (uploadDir : string)
    (rename : list bool) (keys : list string) (w : World) :
  let t1 := (UploadFiles DetectContentType EqualFold t r uploadDir rename keys w).1.2 in
  let t2 := (UploadOneFile DetectContentType EqualFold t r uploadDir rename keys w).1.2 in
  MaxFileSize t1 = (if MaxFileSize t =? 0 then 1024 * 1024 * 1024 else MaxFileSize t) /\
  AllowedFileTypes t1 = AllowedFileTypes t /\
  MaxJSONSize t1 = MaxJSONSize t /\
  AllowUnknownFields t1 = AllowUnknownFields t /\
  t2 = t1 /\
  (forall r' uploadDir' rename' keys' w',
      (UploadFiles DetectContentType EqualFold t1 r' uploadDir' rename' keys' w').1.2 = t1 /\
      (UploadOneFile DetectContentType EqualFold t1 r' uploadDir' rename' keys' w').1.2 = t1).
Proof.
  assert (Hrec : forall t0 r0 d0 rn0 k0 w0,
             (UploadFiles DetectContentType EqualFold t0 r0 d0 rn0 k0 w0).1.2
               = default_MaxFileSize t0).
  { intros. destruct (UploadFiles _ _ t0 r0 d0 rn0 k0 w0) as [[[fs e] t0'] w0'] eqn:Hrun.
    now apply UploadFiles_result in Hrun as (-> & _). }
  assert (Hone : forall t0 r0 d0 rn0 k0 w0,
             (UploadOneFile DetectContentType EqualFold t0 r0 d0 rn0 k0 w0).1.2
               = (UploadFiles DetectContentType EqualFold t0 r0 d0 rn0 k0 w0).1.2).
  { intros. unfold UploadOneFile. rewrite UploadFiles_rename.
    destruct (UploadFiles _ _ t0 r0 d0 rn0 k0 w0) as [[[fs [e |]] t0'] w0']; [reflexivity |].
    now destruct fs. }
  assert (Hidem : default_MaxFileSize (default_MaxFileSize t) = default_MaxFileSize t).
  { unfold default_MaxFileSize. destruct (MaxFileSize t =? 0) eqn:Hz; [reflexivity |].
    now rewrite Hz. }
  cbv zeta. rewrite Hone, !Hrec.
  repeat split; try (unfold default_MaxFileSize; now destruct (MaxFileSize t =? 0)).
  - now rewrite Hrec, Hidem.
  - now rewrite Hone, Hrec, Hidem.
Qed.


End UploadTheorems.

(** *** The upload theorems at sample inputs *)

(** C1, the claim as stated fails: the first part is accepted and written to
    disk, the second one is refused for its type, and the list returned with
    the error is empty instead of holding the record of the first part. *)
Lemma UploadFiles_partial_failure_counterexample :
  let run := UploadFiles DetectContentType_magic gostrings.EqualFold_ascii
               (Sample.tools ["image/png"])
               (Sample.request [("f", Sample.img_png); ("f", Sample.notes_txt)])
               "uploads" [false] ["f"] Sample.world in
  fs_files run.2 !! "uploads/img.png" = Some Sample.png /\
  run.1.1.2 = Some (ErrorString "the uploaded file type is not permitted") /\
  run.1.1.1 = [] /\
  run.1.1.1 <> [mkUploadedFile "img.png" "img.png" 12].
Proof. vm_compute. repeat split; discriminate. Qed.

Lemma UploadFiles_partial_failure_witness :
  let w3 := with_file (with_dir Sample.world "uploads") "uploads/img.png" Sample.png in
  UploadFiles DetectContentType_magic gostrings.EqualFold_ascii
    (Sample.tools ["image/png"])
    (Sample.request [("f", Sample.img_png); ("f", Sample.notes_txt)])
    "uploads" [false] ["f"] Sample.world
    = (([], Some (ErrorString "the uploaded file type is not permitted")),
       default_MaxFileSize (Sample.tools ["image/png"]), w3) /\
  map record_info [mkUploadedFile "img.png" "img.png" 12] = map part_info [Sample.img_png] /\
  Forall (on_disk "uploads" w3) [mkUploadedFile "img.png" "img.png" 12].
Proof.
  apply (UploadFiles_partial_failure DetectContentType_magic gostrings.EqualFold_ascii
           (Sample.tools ["image/png"])
           (Sample.request [("f", Sample.img_png); ("f", Sample.notes_txt)])
           "uploads" [false] ["f"] Sample.world
           (with_dir Sample.world "uploads")
           (with_file (with_dir Sample.world "uploads") "uploads/img.png" Sample.png)
           (with_file (with_dir Sample.world "uploads") "uploads/img.png" Sample.png)
           [("f", Sample.img_png); ("f", Sample.notes_txt)]
           [Sample.img_png] [] Sample.notes_txt
           [mkUploadedFile "img.png" "img.png" 12] []
           (ErrorString "the uploaded file type is not permitted"));
    vm_compute; reflexivity.
Defined.

Lemma sample_range_order (parts : list (string * FileHeader)) (keys : list string) :
  NoDup keys -> (forall k, k ∈ keys <-> k ∈ map fst parts) ->
  range_order (multipart.form_File parts) keys.
Proof.
  intros Hnd Hkeys. split; [exact Hnd |].
  intros k. rewrite Hkeys. symmetry. apply form_File_keys.
Qed.

Lemma range_order_a_b :
  range_order (multipart.form_File [("a", Sample.img_png); ("b", Sample.notes_txt)]) ["b"; "a"].
Proof.
  apply sample_range_order.
  - now apply (bool_decide_unpack _).
  - intros k. cbn [map fst]. rewrite !elem_of_cons, !elem_of_nil. tauto.
Defined.

(** C4, the claim as stated fails: the body has the part of field [a] before
    the part of field [b]; a [range] that comes to [b] first returns the
    records in the other order. *)
Lemma UploadFiles_body_order_counterexample :
  let parts := [("a", Sample.img_png); ("b", Sample.notes_txt)] in
  let run := UploadFiles DetectContentType_magic gostrings.EqualFold_ascii
               (Sample.tools []) (Sample.request parts) "uploads" [false] ["b"; "a"]
               Sample.world in
  range_order (multipart.form_File parts) ["b"; "a"] /\
  run.1.1 = ([mkUploadedFile "notes.txt" "notes.txt" 5; mkUploadedFile "img.png" "img.png" 12],
             None) /\
  map OriginalFileName run.1.1.1 <> map Filename (map snd parts).
Proof.
  cbv zeta. split; [exact range_order_a_b |]. vm_compute. split; [reflexivity | discriminate].
Qed.

Lemma UploadFiles_records_follow_visit_order_witness :
  let parts := [("a", Sample.img_png); ("b", Sample.notes_txt)] in
  let files := [mkUploadedFile "notes.txt" "notes.txt" 5; mkUploadedFile "img.png" "img.png" 12] in
  let w' := with_file (with_file (with_dir Sample.world "uploads") "uploads/notes.txt" Sample.txt)
              "uploads/img.png" Sample.png in
  (map record_info files = map part_info (visited parts ["b"; "a"]) /\
   Forall (on_disk "uploads" w') files) /\
  visited parts ["b"; "a"] ≡ₚ map snd parts /\
  (forall k, ["b"; "a"] = [k] -> visited parts ["b"; "a"] = map snd parts).
Proof.
  apply (UploadFiles_records_follow_visit_order
           DetectContentType_magic gostrings.EqualFold_ascii
           (Sample.tools []) (default_MaxFileSize (Sample.tools []))
           (Sample.request [("a", Sample.img_png); ("b", Sample.notes_txt)])
           "uploads" [false] ["b"; "a"] Sample.world
           (with_file (with_file (with_dir Sample.world "uploads") "uploads/notes.txt"
                         Sample.txt) "uploads/img.png" Sample.png)
           [("a", Sample.img_png); ("b", Sample.notes_txt)]
           [mkUploadedFile "notes.txt" "notes.txt" 5; mkUploadedFile "img.png" "img.png" 12]
           None).
  - reflexivity.
  - exact range_order_a_b.
  - vm_compute. reflexivity.
Defined.

Lemma range_order_f :
  range_order (multipart.form_File [("pngFile", Sample.img_png)]) ["pngFile"].
Proof.
  apply sample_range_order.
  - now apply (bool_decide_unpack _).
  - intros k. cbn [map fst]. rewrite !elem_of_cons, !elem_of_nil. tauto.
Defined.

Lemma UploadOneFile_first_or_panic_witness :
  (UploadOneFile DetectContentType_magic gostrings.EqualFold_ascii (Sample.tools [])
     (Sample.request []) "uploads" [] [] Sample.world).1.1
    = Panics "runtime error: index out of range [0] with length 0" /\
  exists file0 rest,
    [mkUploadedFile "img.png" "img.png" 12] = file0 :: rest /\
    UploadOneFile DetectContentType_magic gostrings.EqualFold_ascii (Sample.tools [])
      (Sample.request [("pngFile", Sample.img_png)]) "uploads" [false] ["pngFile"] Sample.world
      = (Returns (Some file0, None), default_MaxFileSize (Sample.tools []),
         with_file (with_dir Sample.world "uploads") "uploads/img.png" Sample.png).
Proof.
  split.
  - apply (proj1 (UploadOneFile_first_or_panic
                    DetectContentType_magic gostrings.EqualFold_ascii (Sample.tools [])
                    (Sample.request []) "uploads" [] [] Sample.world)); reflexivity.
  - apply (proj2 (UploadOneFile_first_or_panic
                    DetectContentType_magic gostrings.EqualFold_ascii (Sample.tools [])
                    (Sample.request [("pngFile", Sample.img_png)]) "uploads" [false]
                    ["pngFile"] Sample.world)
                 [("pngFile", Sample.img_png)]).
    + reflexivity.
    + discriminate.
    + exact range_order_f.
    + vm_compute. reflexivity.
Defined.



(** ** ReadJSON *)

(** A step of the scanner leaves it without an error or with a syntax
    error. *)
Lemma step_syntax_or_nil (s : json.scanner) (c : ascii) :
  syntax_or_nil (json.err s) -> syntax_or_nil (json.err (json.step s c).1).
Proof.
  destruct s as [st et ps e b]. cbn [json.err]. intros He.
  unfold json.step, json.do_state0, json.do_stateESign, json.do_stateBeginString,
    json.do_stateBeginValue, json.do_stateEndValue, json.do_stateEndTop, json.expect,
    json.pushParseState, json.popParseState, json.error_, json.set_step,
    json.set_parseState.
  cbn [json.step_ json.endTop json.parseState json.err json.bytes].
  repeat case_match; cbn [fst json.err syntax_or_nil]; exact He || exact I.
Qed.

Lemma do_stateEndValue_syntax_or_nil (s : json.scanner) (c : ascii) :
  syntax_or_nil (json.err s) -> syntax_or_nil (json.err (json.do_stateEndValue s c).1).
Proof.
  destruct s as [st et ps e b]. cbn [json.err]. intros He.
  unfold json.do_stateEndValue, json.do_stateEndTop, json.popParseState, json.error_,
    json.set_step, json.set_parseState.
  cbn [json.step_ json.endTop json.parseState json.err json.bytes].
  repeat case_match; cbn [fst json.err syntax_or_nil]; exact He || exact I.
Qed.

(** The only errors that the scan of a value returns are syntax errors. *)
Lemma readValue_scan_syntax_error (b : list ascii) :
  forall (s s' : json.scanner) (scanp n : nat) (e : go_error),
    syntax_or_nil (json.err s) ->
    json.readValue_scan s b scanp = (s', inl (n, Some e)) ->
    exists msg Offset, e = SyntaxError msg Offset.
Proof.
  induction b as [|c b IH]; intros s s' scanp n e Hs; [discriminate |].
  cbn [json.readValue_scan].
  pose proof (step_syntax_or_nil (json.set_bytes s (json.bytes s + 1)) c Hs) as Hstep.
  destruct (json.step (json.set_bytes s (json.bytes s + 1)) c) as [s1 code].
  cbn [fst] in Hstep.
  assert (Hend : match json.do_stateEndValue s1 " " with
                 | (s2, json.scanEnd) => (s2, inl (S scanp, None))
                 | (s2, _) => json.readValue_scan s2 b (S scanp)
                 end = (s', inl (n, Some e)) -> exists msg Offset, e = SyntaxError msg Offset).
  { pose proof (do_stateEndValue_syntax_or_nil s1 " " Hstep) as Hs2.
    destruct (json.do_stateEndValue s1 " ") as [s2 code2]. cbn [fst] in Hs2.
    destruct code2; try discriminate; now apply IH. }
  destruct code; try (now apply IH); try exact Hend; try discriminate.
  intros [= <- _ He]. destruct (json.err s1) as [[] |]; try contradiction; try discriminate.
  injection He as <-. now eexists _, _.
Qed.

(** With bytes left that are not white space, or with a reader that has more
    than the limit allows, a [Decode] does not return [io.EOF]. *)
Lemma Decode_not_EOF {V : Type} (um : bool -> list ascii -> V -> V * error)
    (dec : json.Decoder) (v : V) :
  json.dec_err dec = None ->
  (forall dis text, (um dis text v).2 <> Some EOF) ->
  json.nonSpace (json.buf dec) = true \/ json.rd_err dec <> EOF ->
  (json.Decode um dec v).1.2 <> Some EOF.
Proof.
  intros Herr Hum Hleft. unfold json.Decode, json.readValue. rewrite Herr.
  destruct (json.readValue_scan (json.reset (json.scan dec)) (json.buf dec) 0)
    as [s [[n [e |]] | scanp]] eqn:Hscan.
  - apply readValue_scan_syntax_error in Hscan as (msg & Offset & ->); [| exact I].
    discriminate.
  - cbn. apply Hum.
  - destruct (decide (json.rd_err dec = EOF)) as [Hrd | Hrd].
    + destruct Hleft as [Hns | Hne]; [| contradiction]. rewrite Hns.
      destruct (json.step s " ") as [s2 []]; cbn; try discriminate. apply Hum.
    + cbn. congruence.
Qed.

Lemma length_list_ascii_of_string (s : string) :
  length (list_ascii_of_string s) = String.length s.
Proof. induction s as [|c s IH]; simpl; congruence. Qed.

(** What [ReadJSON] hands to the decoder. *)
Lemma body_decoder_fields (t : Tools) (Body : string) :
  let dec := body_decoder t Body in
  let n := if maxBytes_of t <? 0 then 0 else maxBytes_of t in
  json.dec_err dec = None /\
  json.scan dec = json.mkScanner json.stateBeginValue false [] None 0 /\
  (if Z.of_nat (String.length Body) <=? n
   then json.buf dec = list_ascii_of_string Body /\ json.rd_err dec = EOF
   else json.buf dec = take (Z.to_nat n) (list_ascii_of_string Body) /\
        json.rd_err dec = ErrorString "http: request body too large").
Proof.
  unfold body_decoder, json.MaxBytesReader. rewrite length_list_ascii_of_string.
  destruct (negb (AllowUnknownFields t));
    destruct (Z.of_nat (String.length Body) <=? _); cbn; auto.
Qed.

Section ReadJSONTheorems.
Variable Dest : Type.
Variable Unmarshal : bool -> list ascii -> Dest -> Dest * error.
Variable Unmarshal_struct0 : bool -> list ascii -> unit -> unit * error.

(** [ReadJSON], one statement after the other. *)
Lemma ReadJSON_unfold (t : Tools) (Body : string) (data : Dest) :
  ReadJSON Dest Unmarshal Unmarshal_struct0 t Body data =
    match json.Decode Unmarshal (body_decoder t Body) data with
    | ((data1, Some err), _) => (data1, Some (decode_failure (maxBytes_of t) err))
    | ((data1, None), dec1) =>
        if negb (bool_decide ((json.Decode Unmarshal_struct0 dec1 tt).1.2 = Some EOF))
        then (data1, Some (ErrorString "body must contain only one JSON value"))
        else (data1, None)
    end.
Proof.
  unfold ReadJSON, body_decoder.
  destruct (json.Decode Unmarshal _ data) as [[data1 [e |]] dec1]; [reflexivity |].
  now destruct (json.Decode Unmarshal_struct0 dec1 tt) as [[u e2] dec2].
Qed.

(** A [Decode] that succeeds leaves no error in the decoder. *)
Lemma Decode_ok_dec_err {V : Type} (um : bool -> list ascii -> V -> V * error)
    (dec dec1 : json.Decoder) (v v1 : V) :
  json.Decode um dec v = ((v1, None), dec1) -> json.dec_err dec1 = None /\
  json.rd_err dec1 = json.rd_err dec.
Proof.
  unfold json.Decode, json.readValue.
  destruct (json.dec_err dec) as [e |] eqn:Herr; [discriminate |].
  destruct (json.readValue_scan _ _ _) as [s [[n [e |]] | scanp]].
  - discriminate.
  - intros [= _ <-]. cbn. auto.
  - destruct (decide (json.rd_err dec = EOF)); [| discriminate].
    destruct (json.step s " ") as [s' []]; try discriminate.
    intros [= _ <-]. cbn. auto.
Qed.

(** Over white space the scanner stays where a value may begin. *)
Lemma readValue_scan_spaces (b : list ascii) :
  forall (s : json.scanner) (scanp : nat),
    json.step_ s = json.stateBeginValue ->
    json.nonSpace b = false ->
    exists s', json.readValue_scan s b scanp = (s', inr (scanp + length b)%nat) /\
               json.step_ s' = json.stateBeginValue.
Proof.
  induction b as [|c b IH]; intros s scanp Hst Hsp.
  - exists s. rewrite Nat.add_0_r. auto.
  - cbn [json.nonSpace existsb] in Hsp. apply orb_false_iff in Hsp as [Hc Hb].
    apply negb_false_iff in Hc.
    cbn [json.readValue_scan]. unfold json.step. cbn [json.step_ json.set_bytes].
    rewrite Hst. unfold json.do_stateBeginValue. rewrite Hc.
    destruct (IH (json.set_bytes s (json.bytes s + 1)) (S scanp) Hst Hb) as (s' & Hrun & Hst').
    exists s'. rewrite Hrun. split; [f_equal; f_equal; simpl; lia | exact Hst'].
Qed.

(** When only white space is left and the body has ended within the limit,
    the next [Decode] returns [io.EOF]. *)
Lemma Decode_spaces_EOF {V : Type} (um : bool -> list ascii -> V -> V * error)
    (dec : json.Decoder) (v : V) :
  json.dec_err dec = None -> json.rd_err dec = EOF -> json.nonSpace (json.buf dec) = false ->
  (json.Decode um dec v).1.2 = Some EOF.
Proof.
  intros Herr Hrd Hsp. unfold json.Decode, json.readValue. rewrite Herr.
  destruct (readValue_scan_spaces (json.buf dec) (json.reset (json.scan dec)) 0 eq_refl Hsp)
    as (s' & -> & Hst).
  destruct (decide (json.rd_err dec = EOF)) as [_ | Hne]; [| contradiction].
  unfold json.step. rewrite Hst. cbn. now rewrite Hsp.
Qed.

(** C7 (amended).  After a first value that decodes, [ReadJSON] decodes a
    second one that it discards: it returns the error "body must contain only
    one JSON value" exactly when this second [Decode] returns something else
    than [io.EOF], and no error, with the destination as the first [Decode]
    filled it, exactly when it returns [io.EOF].  The second [Decode] returns
    [io.EOF] exactly when nothing but white space follows the first value and
    the body is not longer than the limit: a body longer than the limit is
    refused with that error also when it holds one value only. *)
Theorem ReadJSON_trailing_content (t : Tools) (Body : string) (data data1 : Dest)
    (dec1 : json.Decoder) :
  json.Decode Unmarshal (body_decoder t Body) data = ((data1, None), dec1) ->
  (forall dis text, (Unmarshal_struct0 dis text tt).2 <> Some EOF) ->
  let err2 := (json.Decode Unmarshal_struct0 dec1 tt).1.2 in
  (ReadJSON Dest Unmarshal Unmarshal_struct0 t Body data
     = (data1, Some (ErrorString "body must contain only one JSON value"))
   <-> err2 <> Some EOF) /\
  (ReadJSON Dest Unmarshal Unmarshal_struct0 t Body data = (data1, None)
   <-> err2 = Some EOF) /\
  (err2 = Some EOF
   <-> json.nonSpace (json.buf dec1) = false /\
       Z.of_nat (String.length Body) <= Z.max 0 (maxBytes_of t)).
Proof.
  intros Hfirst Hum err2. rewrite ReadJSON_unfold, Hfirst. fold err2.
  assert (Hcases : (err2 = Some EOF -> (if negb (bool_decide (err2 = Some EOF))
                      then (data1, Some (ErrorString "body must contain only one JSON value"))
                      else (data1, None)) = (data1, None)) /\
                   (err2 <> Some EOF -> (if negb (bool_decide (err2 = Some EOF))
                      then (data1, Some (ErrorString "body must contain only one JSON value"))
                      else (data1, None))
                      = (data1, Some (ErrorString "body must contain only one JSON value")))).
  { split; intros H.
    - now rewrite bool_decide_eq_true_2.
    - now rewrite bool_decide_eq_false_2. }
  destruct Hcases as [Heof Hother].
  destruct (Decode_ok_dec_err _ _ _ _ _ Hfirst) as [Herr Hrd].
  assert (Hlimit : json.rd_err dec1 = EOF
                   <-> Z.of_nat (String.length Body) <= Z.max 0 (maxBytes_of t)).
  { rewrite Hrd. destruct (body_decoder_fields t Body) as (_ & _ & Hbuf).
    destruct (Z.leb_spec (Z.of_nat (String.length Body))
                (if maxBytes_of t <? 0 then 0 else maxBytes_of t)) as [Hle | Hgt];
      destruct Hbuf as [_ ->]; destruct (Z.ltb_spec (maxBytes_of t) 0);
      split; try lia; try discriminate; reflexivity. }
  assert (Hthird : err2 = Some EOF
                   <-> json.nonSpace (json.buf dec1) = false /\
                       Z.of_nat (String.length Body) <= Z.max 0 (maxBytes_of t)).
  { split.
    - intros He. destruct (json.nonSpace (json.buf dec1)) eqn:Hns.
      + exfalso. revert He. apply Decode_not_EOF; auto.
      + split; [reflexivity |]. apply Hlimit.
        destruct (decide (json.rd_err dec1 = EOF)) as [Hr | Hr]; [exact Hr |].
        exfalso. revert He. apply Decode_not_EOF; auto.
    - intros [Hns Hle]. apply Decode_spaces_EOF; [exact Herr | now apply Hlimit | exact Hns]. }
  destruct (decide (err2 = Some EOF)) as [He | He].
  - rewrite (Heof He). split; [| split; [| exact Hthird]].
    + split; [discriminate | contradiction].
    + split; [intros _; exact He | reflexivity].
  - rewrite (Hother He). split; [| split; [| exact Hthird]].
    + split; [intros _; exact He | reflexivity].
    + split; [discriminate | contradiction].
Qed.

(** C8 (amended).  When the body is longer than the limit, which is
    [MaxJSONSize], or 1 MiB for a [MaxJSONSize] of 0, and the bytes within the
    limit end inside the first value, [ReadJSON] fails with the message that
    names the limit. *)
Theorem ReadJSON_body_too_large (t : Tools) (Body : string) (data : Dest) :
  let maxBytes := if MaxJSONSize t =? 0 then 1048576 else MaxJSONSize t in
  Z.max 0 maxBytes < Z.of_nat (String.length Body) ->
  undecided (take (Z.to_nat maxBytes) (list_ascii_of_string Body)) ->
  ReadJSON Dest Unmarshal Unmarshal_struct0 t Body data
    = (data, Some (ErrorString ("body must not be larger than " +:+ fmt_d maxBytes +:+ " bytes"))).
Proof.
  intros maxBytes Hlong (s & scanp & Hscan).
  assert (Hmax : maxBytes_of t = maxBytes).
  { unfold maxBytes_of, maxBytes. now destruct (MaxJSONSize t =? 0). }
  rewrite ReadJSON_unfold. unfold body_decoder. rewrite Hmax.
  unfold json.MaxBytesReader. rewrite length_list_ascii_of_string.
  assert (Hlimit : Z.to_nat (if maxBytes <? 0 then 0 else maxBytes) = Z.to_nat maxBytes)
    by (destruct (Z.ltb_spec maxBytes 0); lia).
  destruct (Z.leb_spec (Z.of_nat (String.length Body)) (if maxBytes <? 0 then 0 else maxBytes))
    as [Hle | _].
  { destruct (Z.ltb_spec maxBytes 0); lia. }
  rewrite Hlimit.
  assert (Hdec : forall dis,
             json.Decode Unmarshal
               (json.mkDecoder (take (Z.to_nat maxBytes) (list_ascii_of_string Body))
                  (ErrorString "http: request body too large") None
                  (json.mkScanner json.stateBeginValue false [] None 0) dis) data
             = ((data, Some (ErrorString "http: request body too large")),
                json.mkDecoder (take (Z.to_nat maxBytes) (list_ascii_of_string Body))
                  (ErrorString "http: request body too large")
                  (Some (ErrorString "http: request body too large")) s dis)).
  { intros dis. unfold json.Decode, json.readValue. cbn [json.dec_err json.scan json.buf].
    unfold json.reset. cbn [json.bytes]. rewrite Hscan. reflexivity. }
  unfold json.NewDecoder, json.DisallowUnknownFields. cbn [json.delivered json.final].
  destruct (negb (AllowUnknownFields t)); cbn [json.buf json.rd_err json.dec_err json.scan];
    rewrite Hdec; reflexivity.
Qed.

(** C9 (code defect).  When the first [Decode] reports an unknown field
    [key], with the message [json: unknown field "key"] of the library,
    [ReadJSON] returns the whole of that message after its own prefix, because
    the prefix it trims is misspelt; what it returns is not the prefix followed
    by the quoted field name only. *)
Theorem ReadJSON_unknown_field_message (t : Tools) (Body : string) (data data1 : Dest)
    (dec1 : json.Decoder) (key : string) :
  json.Decode Unmarshal (body_decoder t Body) data
    = ((data1, Some (ErrorString ("json: unknown field " +:+ fmt_q key))), dec1) ->
  ReadJSON Dest Unmarshal Unmarshal_struct0 t Body data
    = (data1, Some (ErrorString ("body contains unknown key json: unknown field "
                                 +:+ fmt_q key))) /\
  "body contains unknown key json: unknown field " +:+ fmt_q key
    <> "body contains unknown key " +:+ fmt_q key.
Proof.
  intros Hfirst. rewrite ReadJSON_unfold, Hfirst. split.
  - reflexivity.
  - unfold fmt_q, dquote. simpl. intros [=].
Qed.

End ReadJSONTheorems.

(** *** The ReadJSON theorems at sample inputs *)

Lemma ReadJSON_trailing_content_witness :
  ReadJSON string Sample.Unmarshal_any Sample.Unmarshal_struct0 (mkTools 0 [] 1024 false)
    Sample.body_foo "" = (Sample.body_foo, None) /\
  ReadJSON string Sample.Unmarshal_any Sample.Unmarshal_struct0 (mkTools 0 [] 1024 false)
    (Sample.body_foo +:+ Sample.body_fooo) ""
    = (Sample.body_foo, Some (ErrorString "body must contain only one JSON value")).
Proof.
  split.
  - assert (Hfirst : json.Decode Sample.Unmarshal_any
                       (body_decoder (mkTools 0 [] 1024 false) Sample.body_foo) ""
                     = ((Sample.body_foo, None),
                        (json.Decode Sample.Unmarshal_any
                           (body_decoder (mkTools 0 [] 1024 false) Sample.body_foo) "").2))
      by (vm_compute; reflexivity).
    pose proof (ReadJSON_trailing_content string Sample.Unmarshal_any
                  Sample.Unmarshal_struct0 (mkTools 0 [] 1024 false) Sample.body_foo ""
                  Sample.body_foo _ Hfirst ltac:(intros dis text; discriminate)) as H.
    cbv zeta in H. destruct H as (_ & Hok & Heof).
    apply Hok, Heof. split; vm_compute; [reflexivity | discriminate].
  - assert (Hfirst : json.Decode Sample.Unmarshal_any
                       (body_decoder (mkTools 0 [] 1024 false)
                          (Sample.body_foo +:+ Sample.body_fooo)) ""
                     = ((Sample.body_foo, None),
                        (json.Decode Sample.Unmarshal_any
                           (body_decoder (mkTools 0 [] 1024 false)
                              (Sample.body_foo +:+ Sample.body_fooo)) "").2))
      by (vm_compute; reflexivity).
    pose proof (ReadJSON_trailing_content string Sample.Unmarshal_any
                  Sample.Unmarshal_struct0 (mkTools 0 [] 1024 false)
                  (Sample.body_foo +:+ Sample.body_fooo) ""
                  Sample.body_foo _ Hfirst ltac:(intros dis text; discriminate)) as H.
    cbv zeta in H. destruct H as (Herr & _ & Heof).
    apply Herr. intros He. apply Heof in He as [Hns _]. vm_compute in Hns. discriminate.
Defined.

(** C7, the claim as stated fails: the body [{"foo": "bar"}] followed by one
    space holds exactly one JSON value, and [ReadJSON] accepts it under a
    limit of 1024 bytes; under a limit of 14 bytes, which the value fills, the
    value is decoded into the destination and the call fails with "body must
    contain only one JSON value". *)
Lemma ReadJSON_trailing_content_counterexample :
  ReadJSON string Sample.Unmarshal_any Sample.Unmarshal_struct0 (mkTools 0 [] 1024 false)
    (Sample.body_foo +:+ " ") "" = (Sample.body_foo, None) /\
  ReadJSON string Sample.Unmarshal_any Sample.Unmarshal_struct0 (mkTools 0 [] 14 false)
    (Sample.body_foo +:+ " ") ""
    = (Sample.body_foo, Some (ErrorString "body must contain only one JSON value")).
Proof. vm_compute. split; reflexivity. Qed.

(** C8, the claim as stated fails: a body of 13 bytes under a limit of 5
    bytes is reported as badly formed, for its first byte; and a body whose
    value ends with the limit, followed by one more byte, is reported for
    having more than one value. *)
Lemma ReadJSON_body_too_large_counterexample :
  MaxJSONSize (mkTools 0 [] 5 true) < Z.of_nat (String.length "Hello, World!") /\
  ReadJSON string Sample.Unmarshal_any Sample.Unmarshal_struct0 (mkTools 0 [] 5 true)
    "Hello, World!" ""
    = ("", Some (ErrorString "body contains badly-formed JSON (at character 1)")) /\
  MaxJSONSize (mkTools 0 [] 14 true) < Z.of_nat (String.length (Sample.body_foo +:+ " ")) /\
  ReadJSON string Sample.Unmarshal_any Sample.Unmarshal_struct0 (mkTools 0 [] 14 true)
    (Sample.body_foo +:+ " ") ""
    = (Sample.body_foo, Some (ErrorString "body must contain only one JSON value")).
Proof. vm_compute. repeat split. Qed.

Lemma ReadJSON_body_too_large_witness :
  ReadJSON string Sample.Unmarshal_any Sample.Unmarshal_struct0 (mkTools 0 [] 5 true)
    Sample.body_foo ""
    = ("", Some (ErrorString "body must not be larger than 5 bytes")).
Proof.
  apply (ReadJSON_body_too_large string Sample.Unmarshal_any Sample.Unmarshal_struct0
           (mkTools 0 [] 5 true) Sample.body_foo "").
  - vm_compute. reflexivity.
  - eexists _, _. vm_compute. reflexivity.
Defined.

Lemma ReadJSON_unknown_field_message_witness :
  ReadJSON unit (Sample.Unmarshal_without "fooo") Sample.Unmarshal_struct0 (Sample.tools [])
    Sample.body_fooo tt
    = (tt, Some (ErrorString ("body contains unknown key json: unknown field " +:+ fmt_q "fooo")))
  /\ "body contains unknown key json: unknown field " +:+ fmt_q "fooo"
       <> "body contains unknown key " +:+ fmt_q "fooo".
Proof.
  apply (ReadJSON_unknown_field_message unit (Sample.Unmarshal_without "fooo")
           Sample.Unmarshal_struct0 (Sample.tools []) Sample.body_fooo tt tt
           (json.Decode (Sample.Unmarshal_without "fooo")
              (body_decoder (Sample.tools []) Sample.body_fooo) tt).2 "fooo").
  vm_compute. reflexivity.
Defined.

(** ** The tables of [tools_test.go]

    The cases of the tests of the repository whose outcome does not depend on
    the type of the destination, run on the embedding. *)

Example test_RandomString_length :
  String.length (RandomString 10 (with_rand Sample.world
                                    (replicate 10 (Some 18446744073709551557)))).1 = 10%nat.
Proof. reflexivity. Qed.

Example test_Slugify_valid_string :
  Slugify gostrings.ToLower_ascii "now is the time" = ("now-is-the-time", None).
Proof. reflexivity. Qed.

Example test_Slugify_empty_string :
  Slugify gostrings.ToLower_ascii "" = ("", Some (ErrorString "empty string not permitted")).
Proof. reflexivity. Qed.

Example test_Slugify_complex_string :
  Slugify gostrings.ToLower_ascii "Now is the time for all GOOD men! + fish & such &^123"
    = ("now-is-the-time-for-all-good-men-fish-such-123", None).
Proof. reflexivity. Qed.

Example test_Slugify_no_latin_character :
  Slugify gostrings.ToLower_ascii "?????????????????????"
    = ("", Some (ErrorString "after removing characters, slug is zero length")).
Proof. reflexivity. Qed.

Example test_Slugify_latin_and_other_characters :
  Slugify gostrings.ToLower_ascii "hello world ?????????????????????" = ("hello-world", None).
Proof. reflexivity. Qed.

Example test_ReadJSON_good_json : Sample.read_error 1024 Sample.body_foo = None.
Proof. vm_compute. reflexivity. Qed.

Example test_ReadJSON_badly_formatted_json :
  Sample.read_error 1024 ("{" +:+ fmt_q "foo" +:+ ":}")
    = Some (ErrorString "body contains badly-formed JSON (at character 8)").
Proof. vm_compute. reflexivity. Qed.

Example test_ReadJSON_multiple_json_data :
  Sample.read_error 1024
    ("[{" +:+ fmt_q "foo" +:+ ": " +:+ fmt_q "1" +:+ "}{" +:+ fmt_q "alpha" +:+ ": "
     +:+ fmt_q "beta" +:+ "}]")
    = Some (ErrorString "body contains badly-formed JSON (at character 14)").
Proof. vm_compute. reflexivity. Qed.

Example test_ReadJSON_empty_body :
  Sample.read_error 1024 "" = Some (ErrorString "body must not be empty").
Proof. vm_compute. reflexivity. Qed.

Example test_ReadJSON_syntax_error_in_json :
  Sample.read_error 1024 ("{" +:+ fmt_q "foo" +:+ ": 1" +:+ dquote)
    = Some (ErrorString "body contains badly-formed JSON (at character 10)").
Proof. vm_compute. reflexivity. Qed.

Example test_ReadJSON_missing_field_name :
  Sample.read_error 1024 ("{jack: " +:+ fmt_q "bar" +:+ "}")
    = Some (ErrorString "body contains badly-formed JSON (at character 2)").
Proof. vm_compute. reflexivity. Qed.

Example test_ReadJSON_file_too_large :
  Sample.read_error 5 Sample.body_foo = Some (ErrorString "body must not be larger than 5 bytes").
Proof. vm_compute. reflexivity. Qed.

Example test_ReadJSON_not_json :
  Sample.read_error 1024 "Hello, World!"
    = Some (ErrorString "body contains badly-formed JSON (at character 1)").
Proof. vm_compute. reflexivity. Qed.

(** * Further properties of the code *)

(** ** RandomString, whatever the draws *)

Lemma with_rand_same (w : World) : with_rand w (rand_Reader w) = w.
Proof. now destruct w. Qed.

Lemma rune_at_in_source (x : Z) :
  In (rune_at (x mod Z.of_nat (length source_runes))) source_runes.
Proof.
  unfold rune_at. apply nth_In.
  rewrite length_source_runes.
  pose proof (Z.mod_pos_bound x 64 ltac:(lia)).
  change (length source_runes) with 64%nat. lia.
Qed.

Lemma rand_Prime_draw (w : World) (d : option Z) (tape : list (option Z)) :
  rand_Reader w = d :: tape ->
  rand.Prime 64 w =
    (match d with Some p => inr p | None => inl ErrUnexpectedEOF end, with_rand w tape).
Proof. unfold rand.Prime. intros ->. now destruct d. Qed.

Lemma rand_Prime_exhausted (w : World) :
  rand_Reader w = [] -> rand.Prime 64 w = (inl ErrUnexpectedEOF, w).
Proof. unfold rand.Prime. now intros ->. Qed.

Lemma RandomString_loop_draws (ps : list Z) :
  forall (w : World) (tape : list (option Z)),
    rand_Reader w = map Some ps ++ tape ->
    RandomString_loop (length ps) w =
      (Some (map (fun p => rune_at (Uint64 p mod 64)) ps), with_rand w tape).
Proof.
  induction ps as [|p ps IH]; intros w tape Htape.
  - cbn [map app length RandomString_loop] in *. now rewrite <- Htape, with_rand_same.
  - cbn [length RandomString_loop]. rewrite length_source_runes.
    rewrite (rand_Prime_draw w (Some p) (map Some ps ++ tape) Htape).
    rewrite (IH (with_rand w (map Some ps ++ tape)) tape eq_refl). reflexivity.
Qed.

(** X1.  When the first [n] draws succeed, [RandomString(n)] is the string of
    the characters of the source at the positions [p.Uint64() % 64] of these
    draws, in order; it takes exactly [n] draws from the random source, and
    every character of it is a character of [randomStringSource]: the index
    never leaves the source. *)
Theorem RandomString_from_draws (n : nat) (w : World) (ps : list Z) (tape : list (option Z)) :
  rand_Reader w = map Some ps ++ tape ->
  length ps = n ->
  RandomString n w =
    (string_of_list_ascii (map (fun p => rune_at (Uint64 p mod 64)) ps), with_rand w tape) /\
  String.length (RandomString n w).1 = n /\
  Forall (fun c => In c source_runes) (list_ascii_of_string (RandomString n w).1).
Proof.
  intros Htape <-. unfold RandomString.
  rewrite (RandomString_loop_draws ps w tape Htape). cbn [fst].
  split; [reflexivity |]. split.
  - now rewrite length_string_of_list_ascii, length_map.
  - rewrite list_ascii_of_string_of_list_ascii. apply Forall_forall.
    intros c Hc. apply list_elem_of_In, in_map_iff in Hc as (p & <- & _).
    rewrite <- length_source_runes. apply rune_at_in_source.
Qed.

Lemma RandomString_from_draws_witness :
  RandomString 2 Sample.world = ("fD", with_rand Sample.world []) /\
  String.length (RandomString 2 Sample.world).1 = 2%nat /\
  Forall (fun c => In c source_runes) (list_ascii_of_string (RandomString 2 Sample.world).1).
Proof.
  apply (RandomString_from_draws 2 Sample.world
           [18446744073709551557; 9223372036854775837] []); reflexivity.
Defined.

Lemma RandomString_loop_fails (ps : list Z) :
  forall (n : nat) (w : World) (rest : list (option Z)),
    rand_Reader w = map Some ps ++ rest ->
    (length ps < n)%nat ->
    head rest = None \/ head rest = Some None ->
    RandomString_loop n w = (None, with_rand w (tail rest)).
Proof.
  induction ps as [|p ps IH]; intros n w rest Htape Hn Hrest.
  - destruct n as [|n]; [simpl in Hn; lia |].
    cbn [RandomString_loop]. rewrite length_source_runes. cbn [map app] in Htape.
    destruct rest as [|[q |] rest]; simpl in Hrest.
    + rewrite (rand_Prime_exhausted w Htape). cbn [tail]. now rewrite <- Htape, with_rand_same.
    + destruct Hrest; discriminate.
    + now rewrite (rand_Prime_draw w None rest Htape).
  - destruct n as [|n]; [simpl in Hn; lia |].
    cbn [RandomString_loop]. rewrite length_source_runes.
    rewrite (rand_Prime_draw w (Some p) (map Some ps ++ rest) Htape).
    rewrite (IH n (with_rand w (map Some ps ++ rest)) rest eq_refl); [reflexivity | | exact Hrest].
    simpl in Hn. lia.
Qed.

(** X2.  When one of the first [n] draws fails (the call of [rand.Prime]
    returns an error, or the random source is exhausted), [RandomString(n)]
    returns the 18 characters "RandomString Error" whatever [n] is, and draws
    no further. *)
Theorem RandomString_failed_draw (n : nat) (w : World) (ps : list Z) (rest : list (option Z)) :
  rand_Reader w = map Some ps ++ rest ->
  (length ps < n)%nat ->
  head rest = None \/ head rest = Some None ->
  RandomString n w = ("RandomString Error", with_rand w (tail rest)) /\
  String.length (RandomString n w).1 = 18%nat.
Proof.
  intros Htape Hn Hrest. unfold RandomString.
  rewrite (RandomString_loop_fails ps n w rest Htape Hn Hrest). split; reflexivity.
Qed.

Lemma RandomString_failed_draw_witness :
  RandomString 3 Sample.world = ("RandomString Error", with_rand Sample.world []) /\
  String.length (RandomString 3 Sample.world).1 = 18%nat.
Proof.
  apply (RandomString_failed_draw 3 Sample.world
           [18446744073709551557; 9223372036854775837] []).
  - reflexivity.
  - simpl. lia.
  - left. reflexivity.
Defined.

(** ** CreateDirIfNotExist *)

Lemma Stat_IsNotExist_with_dir (path : string) (w : World) :
  gos.Stat_IsNotExist path (with_dir w path) = false.
Proof.
  unfold gos.Stat_IsNotExist, with_dir. cbn [fs_dirs os_fault].
  destruct (os_fault w (SysStat path)); [reflexivity |].
  rewrite bool_decide_eq_true_2 by set_solver. reflexivity.
Qed.

(** [CreateDirIfNotExist], by what [os.Stat] reports. *)
Lemma CreateDirIfNotExist_cases (path : string) (w : World) :
  let w0 := foldl with_dir w (os_made w path) in
  CreateDirIfNotExist path w =
    if gos.Stat_IsNotExist path w then
      match os_fault w (SysMkdirAll path) with
      | Some err => (Some err, w0)
      | None => (None, with_dir w0 path)
      end
    else (None, w).
Proof.
  unfold CreateDirIfNotExist, gos.MkdirAll. cbv zeta.
  destruct (gos.Stat_IsNotExist path w); [| reflexivity].
  rewrite (proj1 (proj2 (foldl_with_dir_fields (os_made w path) w))).
  now destruct (os_fault w (SysMkdirAll path)).
Qed.

(** X3.  [CreateDirIfNotExist] is idempotent: after a call that returned
    [nil], a second call returns [nil] and changes nothing.  When [os.Stat]
    does not report the path as missing (the path is there, as a directory or
    as a regular file, or [os.Stat] fails for another reason) the call returns
    [nil] and does nothing, so that [nil] does not tell that the directory is
    there.  When [os.Stat] reports the path as missing and the call returns
    [nil], the path is a directory afterwards.  A call that returns an error
    had found the path missing, and has touched no file; it may have made
    parents of the path. *)
Theorem CreateDirIfNotExist_idempotent (path : string) (w w1 : World) (e : error) :
  CreateDirIfNotExist path w = (e, w1) ->
  (e = None -> CreateDirIfNotExist path w1 = (None, w1)) /\
  (gos.Stat_IsNotExist path w = false -> e = None /\ w1 = w) /\
  (gos.Stat_IsNotExist path w = true -> e = None -> path ∈ fs_dirs w1) /\
  (e <> None -> gos.Stat_IsNotExist path w = true /\ fs_files w1 = fs_files w).
Proof.
  rewrite CreateDirIfNotExist_cases. cbv zeta.
  destruct (gos.Stat_IsNotExist path w) eqn:Hstat.
  - destruct (os_fault w (SysMkdirAll path)) as [err |]; intros [= <- <-].
    + repeat split; try discriminate.
      apply (foldl_with_dir_fields (os_made w path) w).
    + repeat split; try discriminate; try contradiction.
      * rewrite CreateDirIfNotExist_cases. now rewrite Stat_IsNotExist_with_dir.
      * cbn [with_dir fs_dirs]. set_solver.
  - intros [= <- <-]. repeat split; try discriminate; try contradiction.
    rewrite CreateDirIfNotExist_cases. now rewrite Hstat.
Qed.

Lemma CreateDirIfNotExist_idempotent_witness :
  CreateDirIfNotExist "uploads" (with_dir Sample.world "uploads")
    = (None, with_dir Sample.world "uploads") /\
  "uploads" ∈ fs_dirs (with_dir Sample.world "uploads").
Proof.
  destruct (CreateDirIfNotExist_idempotent "uploads" Sample.world
              (with_dir Sample.world "uploads") None eq_refl)
    as (Hagain & _ & Hdir & _).
  split; [now apply Hagain | now apply Hdir].
Defined.

(** ** UploadFiles, part by part *)

(** The function literal of [UploadFiles], one outcome after the other. *)
Lemma upload_part_cases DetectContentType EqualFold (t : Tools) (uploadDir : string)
    (renameFile : bool) (fh : FileHeader) (ufs : list UploadedFile) (w : World) :
  upload_part DetectContentType EqualFold t uploadDir renameFile fh ufs w =
    match os_fault w (SysOpen (Filename fh)) with
    | Some e => (([], Some e), w)
    | None =>
        match content fh with
        | [] => (([], Some EOF), w)
        | _ =>
            if negb (type_allowed EqualFold t (DetectContentType (sniffed (content fh))))
            then (([], Some (ErrorString "the uploaded file type is not permitted")), w)
            else
              match os_fault w (SysSeek (Filename fh)) with
              | Some e => (([], Some e), w)
              | None =>
                  let nw := part_name renameFile fh w in
                  let path := filepath.Join uploadDir nw.1 in
                  match os_fault nw.2 (SysCreate path) with
                  | Some e => (([], Some e), nw.2)
                  | None =>
                      match os_fault nw.2 (SysCopy path) with
                      | Some e => (([], Some e), with_file nw.2 path [])
                      | None =>
                          ((ufs ++ [mkUploadedFile nw.1 (Filename fh)
                                      (Z.of_nat (length (content fh)))], None),
                           with_file (with_file nw.2 path []) path (content fh))
                      end
                  end
              end
        end
    end.
Proof.
  unfold upload_part, multipart.Open.
  destruct (os_fault w (SysOpen (Filename fh))) as [eo |]; [reflexivity |].
  rewrite Read_first by discriminate. cbn [pos file_data file_name]. rewrite drop_0.
  destruct (content fh) as [|b data] eqn:Hdata; [reflexivity |].
  cbv beta iota zeta. rewrite (Read_zero_buffer (b :: data)) by discriminate.
  fold (sniffed (b :: data)).
  destruct (negb (type_allowed EqualFold t _)); [reflexivity |].
  unfold multipart.Seek_start. cbn [file_name file_data pos].
  destruct (os_fault w (SysSeek (Filename fh))) as [es |]; [reflexivity |].
  unfold part_name.
  set (named := if renameFile then _ else _).
  destruct named as [newFileName w1]. cbn [fst snd].
  unfold gos.Create, gos.Copy.
  destruct (os_fault w1 (SysCreate _)) as [ec |]; [reflexivity |].
  cbn [os_fault with_file].
  destruct (os_fault w1 (SysCopy _)) as [ecp |]; [reflexivity |].
  cbn [pos file_data]. rewrite drop_0. reflexivity.
Qed.

Lemma RandomString_random_name (n : nat) (w : World) : random_name n (RandomString n w).1.
Proof.
  assert (Hloop : forall (m : nat) (w0 w' : World) (s : list ascii),
             RandomString_loop m w0 = (Some s, w') ->
             length s = m /\ Forall (fun c => In c source_runes) s).
  { induction m as [|m IH]; intros w0 w' s Hrun.
    - injection Hrun as <- <-. auto.
    - cbn [RandomString_loop] in Hrun.
      destruct (rand.Prime _ w0) as [[e | p] w1]; [discriminate |].
      destruct (RandomString_loop m w1) as [[s1 |] w2] eqn:Hrest; [| discriminate].
      injection Hrun as <- <-. destruct (IH _ _ _ Hrest) as [Hlen Hall].
      split; [simpl; congruence |]. constructor; [apply rune_at_in_source | exact Hall]. }
  unfold RandomString, random_name.
  destruct (RandomString_loop n w) as [[s |] w'] eqn:Hrun; cbn [fst]; [right | now left].
  destruct (Hloop _ _ _ _ Hrun) as [Hlen Hall].
  now rewrite length_string_of_list_ascii, list_ascii_of_string_of_list_ascii.
Qed.

Lemma part_name_world (renameFile : bool) (fh : FileHeader) (w : World) :
  fs_files (part_name renameFile fh w).2 = fs_files w /\
  fs_dirs (part_name renameFile fh w).2 = fs_dirs w /\
  os_fault (part_name renameFile fh w).2 = os_fault w.
Proof.
  unfold part_name. destruct renameFile; [| auto].
  destruct (RandomString 25 w) as [s w1] eqn:Hrs.
  now apply RandomString_world in Hrs.
Qed.

Section UploadMore.
Variable DetectContentType : list byte -> string.
Variable EqualFold : string -> string -> bool.

(** A run of the inner loop that succeeds, record by record. *)
Lemma upload_headers_ok_inv (t : Tools) (uploadDir : string) (renameFile : bool)
    (hs : list FileHeader) :
  forall (ufs res : list UploadedFile) (w w' : World),
    upload_headers DetectContentType EqualFold t uploadDir renameFile hs ufs w
      = ((res, None), w') ->
    exists us,
      res = ufs ++ us /\
      Forall2 (fun u h => OriginalFileName u = Filename h /\
                          exists w0, NewFileName u = (part_name renameFile h w0).1) us hs /\
      (renameFile = false ->
       fs_files w' = stored uploadDir (fs_files w) hs /\ rand_Reader w' = rand_Reader w).
Proof.
  induction hs as [|h hs IH]; intros ufs res w w' Hrun.
  - injection Hrun as <- <-. exists []. rewrite app_nil_r. repeat split; auto.
  - cbn [upload_headers] in Hrun. rewrite upload_part_cases in Hrun.
    destruct (os_fault w (SysOpen (Filename h))); [discriminate |].
    destruct (content h) eqn:Hc; [discriminate |]. rewrite <- Hc in Hrun.
    destruct (negb _); [discriminate |].
    destruct (os_fault w (SysSeek (Filename h))); [discriminate |].
    cbv zeta in Hrun.
    destruct (os_fault _ (SysCreate _)); [discriminate |].
    destruct (os_fault _ (SysCopy _)); [discriminate |].
    apply IH in Hrun as (us & -> & Hall & Hdisk).
    eexists (_ :: us). rewrite <- app_assoc. split; [reflexivity |].
    split; [constructor; [split; [reflexivity | now exists w] | exact Hall] |].
    intros ->. destruct (Hdisk eq_refl) as [Hfiles Hrand].
    cbn [part_name fst snd with_file fs_files rand_Reader stored foldl] in *.
    now rewrite Hfiles, Hrand, insert_insert_eq.
Qed.

(** A call of [UploadFiles] that succeeds has created the directory, parsed
    the body and gone through the parts. *)
Lemma UploadFiles_ok_inv (t t' : Tools) (r : Request) (uploadDir : string)
    (rename : list bool) (keys : list string) (w w' : World) (files : list UploadedFile) :
  UploadFiles DetectContentType EqualFold t r uploadDir rename keys w = ((files, None), t', w') ->
  exists parts w1,
    ParseMultipartForm r (maxMemory t) = inr parts /\
    CreateDirIfNotExist uploadDir w = (None, w1) /\
    upload_headers DetectContentType EqualFold (default_MaxFileSize t) uploadDir
      (renameFile_of rename) (visited parts keys) [] w1 = ((files, None), w').
Proof.
  rewrite UploadFiles_unfold.
  destruct (CreateDirIfNotExist uploadDir w) as [[ed |] w1] eqn:Hdir; [discriminate |].
  destruct (ParseMultipartForm r (maxMemory t)) as [ep | parts]; [discriminate |].
  rewrite upload_fields_flat, visited_form_File. cbv zeta.
  destruct (upload_headers _ _ _ _ _ _ _ _) as [[res e1] w2] eqn:Hrun.
  intros [= <- <- <- <-]. now exists parts, w1.
Qed.

(** X4.  When the caller asks for no renaming, every file is stored under the
    name the client sent, and no random number is drawn. *)
Theorem UploadFiles_keeps_names (t t' : Tools) (r : Request) (uploadDir : string)
    (rename : list bool) (keys : list string) (w w' : World) (files : list UploadedFile) :
  renameFile_of rename = false ->
  UploadFiles DetectContentType EqualFold t r uploadDir rename keys w = ((files, None), t', w') ->
  Forall (fun u => NewFileName u = OriginalFileName u) files /\
  rand_Reader w' = rand_Reader w.
Proof.
  intros Hrn Hrun.
  apply UploadFiles_ok_inv in Hrun as (parts & w1 & _ & Hdir & Hrun).
  apply CreateDirIfNotExist_files in Hdir as (_ & _ & Hrand1).
  apply upload_headers_ok_inv in Hrun as (us & -> & Hall & Hdisk).
  destruct (Hdisk Hrn) as [_ Hrand]. split; [| congruence].
  cbn [app]. clear Hdisk Hrand. induction Hall as [|u h us hs [Horig [w0 Hname]] _ IH].
  - constructor.
  - constructor; [| exact IH]. rewrite Hname, Horig, Hrn. reflexivity.
Qed.





(** X6.  With renaming, which is what happens when the caller passes no
    optional argument, every file is stored under a name made of what
    [RandomString(25)] returned (25 characters of the source, or its error
    text when the random source fails) followed by the extension of the name
    the client sent. *)
Theorem UploadFiles_new_names (t t' : Tools) (r : Request) (uploadDir : string)
    (rename : list bool) (keys : list string) (w w' : World) (files : list UploadedFile) :
  renameFile_of rename = true ->
  UploadFiles DetectContentType EqualFold t r uploadDir rename keys w = ((files, None), t', w') ->
  Forall (fun u => exists s, NewFileName u = s +:+ filepath.Ext (OriginalFileName u) /\
                             random_name 25 s) files.
Proof.
  intros Hrn Hrun.
  apply UploadFiles_ok_inv in Hrun as (parts & w1 & _ & _ & Hrun).
  apply upload_headers_ok_inv in Hrun as (us & -> & Hall & _).
  cbn [app]. induction Hall as [|u h us hs [Horig [w0 Hname]] _ IH].
  - constructor.
  - constructor; [| exact IH]. exists (RandomString 25 w0).1.
    split; [| apply RandomString_random_name].
    rewrite Hname, Horig, Hrn. unfold part_name.
    now destruct (RandomString 25 w0).
Qed.

End UploadMore.

Lemma UploadFiles_keeps_names_witness :
  let run := sample_upload [] [("a", Sample.img_png); ("b", Sample.notes_txt)] [false]
               ["a"; "b"] Sample.world in
  Forall (fun u => NewFileName u = OriginalFileName u) run.1.1.1 /\
  rand_Reader run.2 = rand_Reader Sample.world.
Proof.
  intros run.
  apply (UploadFiles_keeps_names DetectContentType_magic gostrings.EqualFold_ascii
           (Sample.tools []) run.1.2
           (Sample.request [("a", Sample.img_png); ("b", Sample.notes_txt)])
           "uploads" [false] ["a"; "b"] Sample.world run.2 run.1.1.1).
  - reflexivity.
  - vm_compute. reflexivity.
Defined.


Lemma UploadFiles_new_names_witness :
  let run := sample_upload ["image/png"] [("f", Sample.img_png)] [] ["f"] Sample.world25 in
  Forall (fun u => exists s, NewFileName u = s +:+ filepath.Ext (OriginalFileName u) /\
                             random_name 25 s) run.1.1.1.
Proof.
  intros run.
  apply (UploadFiles_new_names DetectContentType_magic gostrings.EqualFold_ascii
           (Sample.tools ["image/png"]) run.1.2 (Sample.request [("f", Sample.img_png)])
           "uploads" [] ["f"] Sample.world25 run.2 run.1.1.1).
  - reflexivity.
  - vm_compute. reflexivity.
Defined.

Section UploadOutcomes.
Variable DetectContentType : list byte -> string.
Variable EqualFold : string -> string -> bool.

(** X7.  When the body does not parse, [UploadFiles] returns no record and the
    error "the uploaded file is too big", whatever the error of the parser
    says; no file is written and no random number drawn, but an upload
    directory that [os.Stat] reported as missing has been made. *)
Theorem UploadFiles_parse_error (t : Tools) (r : Request) (uploadDir : string)
    (rename : list bool) (keys : list string) (w : World) (e : go_error) :
  (CreateDirIfNotExist uploadDir w).1 = None ->
  ParseMultipartForm r (maxMemory t) = inl e ->
  let run := UploadFiles DetectContentType EqualFold t r uploadDir rename keys w in
  run.1.1 = ([], Some (ErrorString "the uploaded file is too big")) /\
  fs_files run.2 = fs_files w /\
  rand_Reader run.2 = rand_Reader w /\
  (gos.Stat_IsNotExist uploadDir w = true -> uploadDir ∈ fs_dirs run.2).
Proof.
  intros Hdir Hparse run. subst run. rewrite UploadFiles_unfold.
  destruct (CreateDirIfNotExist uploadDir w) as [ed w1] eqn:Hd. simpl in Hdir. subst ed.
  rewrite Hparse. cbn [fst snd].
  destruct (CreateDirIfNotExist_files _ _ _ _ Hd) as (Hf & _ & Hr).
  repeat split; try assumption.
  intros Hstat. rewrite CreateDirIfNotExist_cases, Hstat in Hd. cbv zeta in Hd.
  destruct (os_fault w (SysMkdirAll uploadDir)); [discriminate |].
  injection Hd as <-. cbn [with_dir fs_dirs]. set_solver.
Qed.

Lemma type_allowed_default (t : Tools) (fileType : string) :
  type_allowed EqualFold (default_MaxFileSize t) fileType = type_allowed EqualFold t fileType.
Proof.
  unfold type_allowed, default_MaxFileSize. now destruct (MaxFileSize t =? 0).
Qed.

Lemma match_nonempty {A B : Type} (l : list A) (x y : B) :
  l <> [] -> match l with [] => x | _ :: _ => y end = y.
Proof. now destruct l. Qed.

Lemma upload_headers_accepts (t : Tools) (uploadDir : string) (renameFile : bool)
    (hs : list FileHeader) :
  forall (ufs : list UploadedFile) (w : World),
    (forall c, os_fault w c = None) ->
    Forall (acceptable DetectContentType EqualFold t) hs ->
    exists us w',
      upload_headers DetectContentType EqualFold t uploadDir renameFile hs ufs w
        = ((ufs ++ us, None), w') /\
      map record_info us = map part_info hs.
Proof.
  induction hs as [|h hs IH]; intros ufs w Hfault Hall.
  - exists [], w. now rewrite app_nil_r.
  - inversion Hall as [|? ? [Hne Htype] Hrest]; subst.
    cbn [upload_headers]. rewrite upload_part_cases, Hfault.
    rewrite match_nonempty by exact Hne.
    rewrite Htype, Hfault. cbn [negb]. cbv zeta.
    destruct (part_name_world renameFile h w) as (_ & _ & Hnw).
    rewrite Hnw, !Hfault.
    destruct (IH (ufs ++ [mkUploadedFile (part_name renameFile h w).1 (Filename h)
                            (Z.of_nat (length (content h)))])
                 (with_file (with_file (part_name renameFile h w).2
                               (filepath.Join uploadDir (part_name renameFile h w).1) [])
                    (filepath.Join uploadDir (part_name renameFile h w).1) (content h)))
      as (us & w' & Hrun & Hinfo); [| exact Hrest |].
    { intros c. cbn [os_fault with_file]. now rewrite Hnw. }
    eexists (_ :: us), w'. rewrite Hrun, <- app_assoc. split; [reflexivity |].
    cbn [map]. now rewrite Hinfo.
Qed.

Lemma visited_subset (parts : list (string * FileHeader)) (keys : list string) (h : FileHeader) :
  h ∈ visited parts keys -> h ∈ map snd parts.
Proof.
  unfold visited. intros Hin. apply list_elem_of_In, in_flat_map in Hin as (k & _ & Hk).
  unfold field_parts in Hk. apply list_elem_of_In, list_elem_of_fmap in Hk as (p & -> & Hp).
  apply list_elem_of_filter in Hp as [_ Hp]. apply list_elem_of_fmap. now exists p.
Qed.

(** X8.  [UploadFiles] succeeds whenever no system call fails, the body
    parses, and every file part has at least one byte and a buffer of an
    allowed type: it then returns one record for every part it comes to. *)
Theorem UploadFiles_succeeds (t : Tools) (r : Request) (uploadDir : string)
    (rename : list bool) (keys : list string) (w : World)
    (parts : list (string * FileHeader)) :
  (forall c, os_fault w c = None) ->
  ParseMultipartForm r (maxMemory t) = inr parts ->
  Forall (acceptable DetectContentType EqualFold t) (map snd parts) ->
  exists files w',
    UploadFiles DetectContentType EqualFold t r uploadDir rename keys w
      = ((files, None), default_MaxFileSize t, w') /\
    map record_info files = map part_info (visited parts keys).
Proof.
  intros Hfault Hparse Hall. rewrite UploadFiles_unfold.
  destruct (CreateDirIfNotExist uploadDir w) as [ed w1] eqn:Hd.
  destruct (CreateDirIfNotExist_files _ _ _ _ Hd) as (_ & Hfault1 & _).
  assert (Hed : ed = None).
  { rewrite CreateDirIfNotExist_cases, Hfault in Hd. cbv zeta in Hd.
    destruct (gos.Stat_IsNotExist uploadDir w); now injection Hd as <-. }
  subst ed. rewrite Hparse, upload_fields_flat, visited_form_File. cbv zeta.
  destruct (upload_headers_accepts (default_MaxFileSize t) uploadDir (renameFile_of rename)
              (visited parts keys) [] w1) as (us & w' & Hrun & Hinfo).
  - intros c. rewrite Hfault1. apply Hfault.
  - apply Forall_forall. intros h Hh. apply visited_subset in Hh.
    rewrite Forall_forall in Hall. destruct (Hall h Hh) as [Hne Htype].
    split; [exact Hne | now rewrite type_allowed_default].
  - exists us, w'. rewrite Hrun. split; [reflexivity | exact Hinfo].
Qed.


(** X10.  [UploadOneFile] stores every file part of the body, not the first
    one only: when it returns a record, this is the first record of the list
    of [UploadFiles], there is one record for each part and the file of each
    is on disk; and every error of [UploadFiles] is handed on as it is, with
    a [nil] record. *)
Theorem UploadOneFile_stores_every_part (t t' : Tools) (r : Request) (uploadDir : string)
    (rename : list bool) (keys : list string) (w w' : World) :
  (forall file0,
      UploadOneFile DetectContentType EqualFold t r uploadDir rename keys w
        = (Returns (Some file0, None), t', w') ->
      exists files parts,
        UploadFiles DetectContentType EqualFold t r uploadDir rename keys w
          = ((file0 :: files, None), t', w') /\
        ParseMultipartForm r (maxMemory t) = inr parts /\
        length (file0 :: files) = length (visited parts keys) /\
        Forall (on_disk uploadDir w') (file0 :: files)) /\
  (forall files e,
      UploadFiles DetectContentType EqualFold t r uploadDir rename keys w
        = ((files, Some e), t', w') ->
      UploadOneFile DetectContentType EqualFold t r uploadDir rename keys w
        = (Returns (None, Some e), t', w')).
Proof.
  split.
  - intros file0. unfold UploadOneFile. rewrite UploadFiles_rename.
    destruct (UploadFiles _ _ t r uploadDir rename keys w) as [[[fs [e |]] t1] w1] eqn:Hrun;
      [discriminate |].
    destruct fs as [|f fs]; [discriminate |]. intros [= <- <- <-].
    apply UploadFiles_result in Hrun as (_ & _ & (parts & Hparse & Hinfo & Hon)).
    exists fs, parts. repeat split; try assumption.
    apply (f_equal (@length _)) in Hinfo. now rewrite !length_map in Hinfo.
  - intros files e Hrun. unfold UploadOneFile. now rewrite UploadFiles_rename, Hrun.
Qed.

End UploadOutcomes.

Lemma UploadFiles_parse_error_witness :
  let run := UploadFiles DetectContentType_magic gostrings.EqualFold_ascii (Sample.tools [])
               bad_request "uploads" [] [] Sample.world in
  run.1.1 = ([], Some (ErrorString "the uploaded file is too big")) /\
  fs_files run.2 = fs_files Sample.world /\
  rand_Reader run.2 = rand_Reader Sample.world /\
  "uploads" ∈ fs_dirs run.2.
Proof.
  intros run.
  destruct (UploadFiles_parse_error DetectContentType_magic gostrings.EqualFold_ascii
              (Sample.tools []) bad_request "uploads" [] [] Sample.world
              (ErrorString "multipart: NextPart: EOF") eq_refl eq_refl)
    as (Hres & Hfiles & Hrand & Hdir).
  split; [exact Hres |]. split; [exact Hfiles |]. split; [exact Hrand |].
  apply Hdir. reflexivity.
Defined.

Lemma UploadFiles_succeeds_witness :
  exists files w',
    UploadFiles DetectContentType_magic gostrings.EqualFold_ascii (Sample.tools ["image/png"])
      (Sample.request [("f", Sample.img_png)]) "uploads" [] ["f"] Sample.world25
      = ((files, None), default_MaxFileSize (Sample.tools ["image/png"]), w') /\
    map record_info files = map part_info (visited [("f", Sample.img_png)] ["f"]).
Proof.
  apply (UploadFiles_succeeds DetectContentType_magic gostrings.EqualFold_ascii
           (Sample.tools ["image/png"]) (Sample.request [("f", Sample.img_png)])
           "uploads" [] ["f"] Sample.world25 [("f", Sample.img_png)]).
  - reflexivity.
  - reflexivity.
  - constructor; [split; [discriminate | vm_compute; reflexivity] | constructor].
Defined.


Lemma UploadOneFile_stores_every_part_witness :
  let run := sample_upload [] [("f", Sample.img_png); ("f", Sample.notes_txt)] [false] ["f"]
               Sample.world in
  exists files parts,
    run = ((mkUploadedFile "img.png" "img.png" 12 :: files, None), run.1.2, run.2) /\
    ParseMultipartForm (Sample.request [("f", Sample.img_png); ("f", Sample.notes_txt)])
      (maxMemory (Sample.tools [])) = inr parts /\
    length (mkUploadedFile "img.png" "img.png" 12 :: files) = length (visited parts ["f"]) /\
    Forall (on_disk "uploads" run.2) (mkUploadedFile "img.png" "img.png" 12 :: files).
Proof.
  intros run.
  apply (proj1 (UploadOneFile_stores_every_part
                  DetectContentType_magic gostrings.EqualFold_ascii (Sample.tools [])
                  run.1.2
                  (Sample.request [("f", Sample.img_png); ("f", Sample.notes_txt)])
                  "uploads" [false] ["f"] Sample.world run.2)).
  vm_compute. reflexivity.
Defined.

(** ** Slugify: what a slug looks like *)

Section SlugShape.

Local Abbreviation re := (regexp.mkRegexp [("a", "z"); ("0", "9")]%char).
Local Abbreviation inside := (fun c : ascii => negb (outside_a_z_0_9 c)).

Lemma slug_char_cases (c : ascii) :
  slug_char c = true -> outside_a_z_0_9 c = false \/ c = "-"%char.
Proof.
  unfold slug_char. intros H. apply orb_true_iff in H as [H | H].
  - left. now apply negb_true_iff.
  - right. now apply Ascii.eqb_eq.
Qed.

Lemma slug_char_inside (c : ascii) : outside_a_z_0_9 c = false -> slug_char c = true.
Proof. unfold slug_char. now intros ->. Qed.

Lemma inside_not_hyphen (c : ascii) : outside_a_z_0_9 c = false -> c <> "-"%char.
Proof. intros H ->. discriminate. Qed.

(** What the replacement leaves: letters, digits and hyphens ... *)
Lemma ReplaceAll_slug_chars (l : list ascii) :
  Forall (fun c => slug_char c = true) (regexp.ReplaceAll_scan re ["-"%char] l) /\
  Forall (fun c => slug_char c = true) (regexp.ReplaceAll_skip re ["-"%char] l).
Proof.
  induction l as [|c l [IHscan IHskip]]; [split; constructor |].
  cbn [regexp.ReplaceAll_scan regexp.ReplaceAll_skip].
  assert (Hcm : regexp.class_match re c = outside_a_z_0_9 c) by apply class_match_outside.
  rewrite !Hcm. destruct (outside_a_z_0_9 c) eqn:Hc.
  - split; [constructor; [reflexivity | exact IHskip] | exact IHskip].
  - split; (constructor; [now apply slug_char_inside | exact IHscan]).
Qed.

Lemma no_double_hyphen_cons (c : ascii) (l : list ascii) :
  c <> "-"%char -> no_double_hyphen l -> no_double_hyphen (c :: l).
Proof. intros Hc Hl. destruct l; [exact I |]. split; [contradiction | exact Hl]. Qed.

Lemma no_double_hyphen_tail (c : ascii) (l : list ascii) :
  no_double_hyphen (c :: l) -> no_double_hyphen l.
Proof. destruct l; [trivial | now intros [_ H]]. Qed.

(** ... never two hyphens in a row ... *)
Lemma ReplaceAll_no_double_hyphen (l : list ascii) :
  no_double_hyphen (regexp.ReplaceAll_scan re ["-"%char] l) /\
  no_double_hyphen ("-"%char :: regexp.ReplaceAll_skip re ["-"%char] l).
Proof.
  induction l as [|c l [IHscan IHskip]]; [split; exact I |].
  cbn [regexp.ReplaceAll_scan regexp.ReplaceAll_skip app].
  assert (Hcm : regexp.class_match re c = outside_a_z_0_9 c) by apply class_match_outside.
  rewrite !Hcm. destruct (outside_a_z_0_9 c) eqn:Hc.
  - split; exact IHskip.
  - pose proof (inside_not_hyphen c Hc) as Hne.
    assert (Hcs : no_double_hyphen (c :: regexp.ReplaceAll_scan re ["-"%char] l))
      by now apply no_double_hyphen_cons.
    split; [exact Hcs |]. split; [intros _; exact Hne | exact Hcs].
Qed.

(** ... and every letter and digit, in its place. *)
Lemma ReplaceAll_letters_digits (l : list ascii) :
  List.filter inside (regexp.ReplaceAll_scan re ["-"%char] l) = List.filter inside l /\
  List.filter inside (regexp.ReplaceAll_skip re ["-"%char] l) = List.filter inside l.
Proof.
  induction l as [|c l [IHscan IHskip]]; [split; reflexivity |].
  cbn [regexp.ReplaceAll_scan regexp.ReplaceAll_skip app List.filter].
  assert (Hcm : regexp.class_match re c = outside_a_z_0_9 c) by apply class_match_outside.
  rewrite !Hcm. destruct (outside_a_z_0_9 c) eqn:Hc; cbn [List.filter negb];
    rewrite ?Hc; cbn [negb].
  - split; exact IHskip.
  - now rewrite IHscan.
Qed.

(** Trimming cuts hyphens off the two ends. *)
Lemma strip_leading_split (l : list ascii) :
  exists pre, l = pre ++ strip_leading_hyphens l /\ Forall (fun c => c = "-"%char) pre.
Proof.
  induction l as [|c l (pre & Hl & Hpre)]; [now exists [] |].
  cbn [strip_leading_hyphens]. destruct (Ascii.eqb_spec c "-") as [-> | Hne].
  - exists ("-"%char :: pre). split; [simpl; now f_equal | now constructor].
  - now exists [].
Qed.

Lemma strip_trailing_split (l : list ascii) :
  exists suf, l = strip_trailing_hyphens l ++ suf /\ Forall (fun c => c = "-"%char) suf.
Proof.
  induction l as [|c l (suf & Hl & Hsuf)]; [now exists [] |].
  cbn [strip_trailing_hyphens]. destruct (strip_trailing_hyphens l) as [|d kept].
  - simpl in Hl. subst suf. destruct (Ascii.eqb_spec c "-") as [-> | Hne].
    + exists ("-"%char :: l). split; [reflexivity | now constructor].
    + now exists l.
  - exists suf. split; [simpl; now f_equal | exact Hsuf].
Qed.

Lemma strip_leading_head (l : list ascii) : head (strip_leading_hyphens l) <> Some "-"%char.
Proof.
  induction l as [|c l IH]; [discriminate |].
  cbn [strip_leading_hyphens]. destruct (Ascii.eqb_spec c "-") as [-> | Hne]; [exact IH |].
  simpl. congruence.
Qed.

Lemma strip_trailing_last (l : list ascii) : last (strip_trailing_hyphens l) <> Some "-"%char.
Proof.
  induction l as [|c l IH]; [discriminate |].
  cbn [strip_trailing_hyphens]. destruct (strip_trailing_hyphens l) as [|d kept].
  - destruct (Ascii.eqb_spec c "-") as [-> | Hne]; [discriminate | simpl; congruence].
  - exact IH.
Qed.

Lemma no_double_hyphen_app (a b : list ascii) :
  no_double_hyphen (a ++ b) -> no_double_hyphen a /\ no_double_hyphen b.
Proof.
  induction a as [|c a IH]; [now split |].
  intros H. pose proof (no_double_hyphen_tail _ _ H) as Ht.
  destruct (IH Ht) as [Ha Hb]. split; [| exact Hb].
  destruct a as [|c2 a]; [exact I |]. destruct H as [Hc _]. now split.
Qed.

Lemma filter_hyphens (l : list ascii) :
  Forall (fun c => c = "-"%char) l -> List.filter inside l = [].
Proof. induction 1 as [|c l -> _ IH]; [reflexivity | exact IH]. Qed.

(** The bytes that [Slugify] is left with after the replacement and the
    trimming. *)
Lemma slug_bytes_shape (l : list ascii) :
  let T := strip_trailing_hyphens
             (strip_leading_hyphens (regexp.ReplaceAll_scan re ["-"%char] l)) in
  Forall (fun c => slug_char c = true) T /\
  head T <> Some "-"%char /\ last T <> Some "-"%char /\ no_double_hyphen T /\
  List.filter inside T = List.filter inside l.
Proof.
  intros T.
  destruct (strip_leading_split (regexp.ReplaceAll_scan re ["-"%char] l)) as (pre & HR & Hpre).
  destruct (strip_trailing_split
              (strip_leading_hyphens (regexp.ReplaceAll_scan re ["-"%char] l)))
    as (suf & HL & Hsuf).
  fold T in HL.
  pose proof (proj1 (ReplaceAll_slug_chars l)) as Hchars.
  pose proof (proj1 (ReplaceAll_no_double_hyphen l)) as Hndh.
  pose proof (proj1 (ReplaceAll_letters_digits l)) as Hfilter.
  pose proof (strip_leading_head (regexp.ReplaceAll_scan re ["-"%char] l)) as Hhead.
  rewrite HR in Hchars, Hndh, Hfilter. rewrite HL in Hchars, Hndh, Hfilter, Hhead.
  apply Forall_app in Hchars as [_ Hchars]. apply Forall_app in Hchars as [Hchars _].
  apply no_double_hyphen_app in Hndh as [_ Hndh].
  apply no_double_hyphen_app in Hndh as [Hndh _].
  rewrite !List.filter_app, (filter_hyphens pre Hpre), (filter_hyphens suf Hsuf) in Hfilter.
  rewrite app_nil_r in Hfilter. cbn [app] in Hfilter.
  repeat split; try assumption.
  - destruct T; [discriminate | exact Hhead].
  - apply strip_trailing_last.
Qed.

(** A list of that shape goes through the replacement and the trimming
    unchanged. *)
Lemma ReplaceAll_fixed (T : list ascii) :
  Forall (fun c => slug_char c = true) T -> no_double_hyphen T ->
  regexp.ReplaceAll_scan re ["-"%char] T = T /\
  (head T <> Some "-"%char -> regexp.ReplaceAll_skip re ["-"%char] T = T).
Proof.
  induction T as [|c T IH]; intros Hchars Hndh; [now split |].
  inversion Hchars as [|? ? Hc Hrest]; subst.
  destruct (IH Hrest (no_double_hyphen_tail _ _ Hndh)) as [IHscan IHskip].
  cbn [regexp.ReplaceAll_scan regexp.ReplaceAll_skip app].
  assert (Hcm : regexp.class_match re c = outside_a_z_0_9 c) by apply class_match_outside.
  rewrite !Hcm. destruct (slug_char_cases c Hc) as [Hin | ->].
  - rewrite Hin, IHscan. now split.
  - change (outside_a_z_0_9 "-") with true. cbv iota. split; [| simpl; congruence].
    f_equal. apply IHskip. destruct T as [|c2 T]; [discriminate |].
    destruct Hndh as [Hc2 _]. simpl. intros [= ->]. now apply Hc2.
Qed.

Lemma strip_leading_fixed (T : list ascii) :
  head T <> Some "-"%char -> strip_leading_hyphens T = T.
Proof.
  destruct T as [|c T]; [reflexivity |]. cbn [strip_leading_hyphens head].
  destruct (Ascii.eqb_spec c "-") as [-> | Hne]; [congruence | reflexivity].
Qed.

Lemma strip_trailing_fixed (T : list ascii) :
  last T <> Some "-"%char -> strip_trailing_hyphens T = T.
Proof.
  induction T as [|c T IH]; [reflexivity |].
  cbn [strip_trailing_hyphens]. destruct T as [|d T].
  - simpl. destruct (Ascii.eqb_spec c "-") as [-> | Hne]; [congruence | reflexivity].
  - intros Hlast. rewrite IH by exact Hlast. reflexivity.
Qed.

Variable ToLower : string -> string.

(** [Slugify] on an input that is not empty, in terms of the bytes it is
    left with. *)
Lemma Slugify_bytes (s : string) :
  s <> "" ->
  Slugify ToLower s =
    match strip_trailing_hyphens
            (strip_leading_hyphens
               (regexp.ReplaceAll_scan re ["-"%char] (list_ascii_of_string (ToLower s)))) with
    | [] => ("", Some (ErrorString "after removing characters, slug is zero length"))
    | T => (string_of_list_ascii T, None)
    end.
Proof.
  intros Hs. unfold Slugify. destruct (String.eqb_spec s "") as [? | _]; [contradiction |].
  unfold gostrings.Trim, regexp.ReplaceAllLiteralString. cbn [list_ascii_of_string].
  rewrite list_ascii_of_string_of_list_ascii, TrimLeft_hyphen, TrimRight_hyphen.
  rewrite length_string_of_list_ascii.
  destruct (strip_trailing_hyphens _) as [|c T]; reflexivity.
Qed.

(** A slug that [Slugify] returns comes from an input that is not empty, and
    is the string of the bytes left. *)
Lemma Slugify_ok_inv (s slug : string) :
  Slugify ToLower s = (slug, None) ->
  s <> "" /\
  list_ascii_of_string slug
    = strip_trailing_hyphens
        (strip_leading_hyphens
           (regexp.ReplaceAll_scan re ["-"%char] (list_ascii_of_string (ToLower s)))) /\
  list_ascii_of_string slug <> [].
Proof.
  intros Hrun. assert (Hs : s <> "") by (intros ->; discriminate).
  rewrite (Slugify_bytes s Hs) in Hrun.
  destruct (strip_trailing_hyphens _) as [|c T]; [discriminate |].
  apply (f_equal fst) in Hrun. cbn [fst] in Hrun.
  rewrite <- Hrun, list_ascii_of_string_of_list_ascii. now repeat split.
Qed.

(** X11.  A slug that [Slugify] returns is well formed, whatever the input
    and whatever [strings.ToLower] does: it has at least one character, only
    lower-case letters, digits and hyphens, no hyphen at its start or at its
    end, and no two hyphens in a row. *)
Theorem Slugify_well_formed (s slug : string) :
  Slugify ToLower s = (slug, None) -> well_formed_slug slug.
Proof.
  intros Hrun. apply Slugify_ok_inv in Hrun as (_ & Hbytes & Hne).
  destruct (slug_bytes_shape (list_ascii_of_string (ToLower s)))
    as (Hchars & Hhead & Hlast & Hndh & _).
  unfold well_formed_slug. cbv zeta. rewrite Hbytes in *. now repeat split.
Qed.

(** X12.  [Slugify] neither loses nor adds a letter or a digit: on an input
    that is not empty, the lower-case letters and the digits of the slug are
    those of the lower-cased input, in the same order, and the error for a
    slug of length zero is returned exactly when the lower-cased input has
    none. *)
Theorem Slugify_keeps_letters_digits (s : string) :
  s <> "" ->
  match Slugify ToLower s with
  | (slug, None) =>
      letters_digits slug = letters_digits (ToLower s) /\ letters_digits (ToLower s) <> []
  | (slug, Some e) =>
      slug = "" /\ e = ErrorString "after removing characters, slug is zero length" /\
      letters_digits (ToLower s) = []
  end.
Proof.
  intros Hs. rewrite (Slugify_bytes s Hs).
  destruct (slug_bytes_shape (list_ascii_of_string (ToLower s)))
    as (Hchars & Hhead & _ & _ & Hfilter).
  unfold letters_digits. rewrite <- Hfilter.
  destruct (strip_trailing_hyphens _) as [|c T]; [now repeat split |].
  rewrite list_ascii_of_string_of_list_ascii. split; [reflexivity |].
  inversion Hchars as [|? ? Hc _]; subst. cbn [List.filter].
  destruct (slug_char_cases c Hc) as [Hin | ->]; [now rewrite Hin |].
  now contradiction Hhead.
Qed.

Lemma lower_byte_slug_char (c : ascii) : slug_char c = true -> gostrings.lower_byte c = c.
Proof. destruct c as [[] [] [] [] [] [] [] []]; try discriminate; reflexivity. Qed.

(** X13.  Making a slug of a slug changes nothing: when [Slugify] returns
    [slug], it returns [slug] again for the input [slug], provided that
    [strings.ToLower] leaves [slug] as it is; the lower-casing of ASCII
    strings does. *)
Theorem Slugify_idempotent (s slug : string) :
  Slugify ToLower s = (slug, None) ->
  (ToLower slug = slug -> Slugify ToLower slug = (slug, None)) /\
  gostrings.ToLower_ascii slug = slug.
Proof.
  intros Hrun. apply Slugify_ok_inv in Hrun as (_ & Hbytes & Hne).
  destruct (slug_bytes_shape (list_ascii_of_string (ToLower s)))
    as (Hchars & Hhead & Hlast & Hndh & _).
  rewrite <- Hbytes in *. split.
  - intros Hfix. rewrite Slugify_bytes by (intros ->; now apply Hne).
    rewrite Hfix, (proj1 (ReplaceAll_fixed _ Hchars Hndh)).
    rewrite (strip_leading_fixed _ Hhead), (strip_trailing_fixed _ Hlast).
    destruct (list_ascii_of_string slug) eqn:Hl; [contradiction |].
    now rewrite <- Hl, string_of_list_ascii_of_string.
  - unfold gostrings.ToLower_ascii.
    rewrite <- (string_of_list_ascii_of_string slug) at 2. f_equal.
    clear -Hchars. induction Hchars as [|c l Hc _ IH]; [reflexivity |].
    cbn [map]. now rewrite (lower_byte_slug_char c Hc), IH.
Qed.

End SlugShape.

Lemma Slugify_well_formed_witness : well_formed_slug "hello-world".
Proof.
  apply (Slugify_well_formed gostrings.ToLower_ascii "Hello, World!" "hello-world").
  reflexivity.
Defined.

Lemma Slugify_keeps_letters_digits_witness :
  letters_digits "hello-world" = letters_digits (gostrings.ToLower_ascii "Hello, World!") /\
  letters_digits (gostrings.ToLower_ascii "Hello, World!") <> [].
Proof.
  apply (Slugify_keeps_letters_digits gostrings.ToLower_ascii "Hello, World!").
  discriminate.
Defined.

Lemma Slugify_idempotent_witness :
  Slugify gostrings.ToLower_ascii "hello-world" = ("hello-world", None) /\
  gostrings.ToLower_ascii "hello-world" = "hello-world".
Proof.
  destruct (Slugify_idempotent gostrings.ToLower_ascii "Hello, World!" "hello-world" eq_refl)
    as [Hagain Hlower].
  split; [apply Hagain; reflexivity | exact Hlower].
Defined.

(** ** ReadJSON: empty bodies, bad first bytes, bytes after the value *)

(** Over leading white space the scanner counts the bytes and stays where a
    value may begin. *)
Lemma readValue_scan_leading_spaces (ws rest : list ascii) :
  forall (s : json.scanner) (scanp : nat),
    json.step_ s = json.stateBeginValue ->
    json.nonSpace ws = false ->
    exists s', json.readValue_scan s (ws ++ rest) scanp
                 = json.readValue_scan s' rest (scanp + length ws)%nat /\
               json.step_ s' = json.stateBeginValue /\
               json.bytes s' = json.bytes s + Z.of_nat (length ws).
Proof.
  induction ws as [|c ws IH]; intros s scanp Hst Hsp.
  - exists s. rewrite Nat.add_0_r, Z.add_0_r. auto.
  - cbn [json.nonSpace existsb] in Hsp. apply orb_false_iff in Hsp as [Hc Hb].
    apply negb_false_iff in Hc.
    cbn [json.readValue_scan app]. unfold json.step. cbn [json.step_ json.set_bytes].
    rewrite Hst. unfold json.do_stateBeginValue. rewrite Hc.
    destruct (IH (json.set_bytes s (json.bytes s + 1)) (S scanp) Hst Hb)
      as (s' & Hrun & Hst' & Hbytes).
    exists s'. rewrite Hrun. split; [f_equal; simpl; lia |].
    split; [exact Hst' |]. rewrite Hbytes. cbn [json.bytes json.set_bytes length]. lia.
Qed.

(** A byte with which no value begins is a syntax error at its place. *)
Lemma do_stateBeginValue_refuses (s : json.scanner) (c : ascii) :
  json.isSpace c = false -> begins_value c = false ->
  exists msg, json.do_stateBeginValue s c
                = (json.mkScanner json.stateError (json.endTop s) (json.parseState s)
                     (Some (SyntaxError msg (json.bytes s))) (json.bytes s),
                   json.scanError).
Proof.
  intros Hsp Hb. unfold json.do_stateBeginValue. rewrite Hsp.
  destruct c as [[] [] [] [] [] [] [] []]; try discriminate Hb;
    (eexists; unfold json.error_; reflexivity).
Qed.

Section ReadJSONMore.
Variable Dest : Type.
Variable Unmarshal : bool -> list ascii -> Dest -> Dest * error.
Variable Unmarshal_struct0 : bool -> list ascii -> unit -> unit * error.

(** X14.  A body without a byte, or with white space only, that is within
    the limit is refused as empty, and the destination is left as it was. *)
Theorem ReadJSON_blank_body (t : Tools) (Body : string) (data : Dest) :
  json.nonSpace (list_ascii_of_string Body) = false ->
  Z.of_nat (String.length Body) <= maxBytes_of t ->
  ReadJSON Dest Unmarshal Unmarshal_struct0 t Body data
    = (data, Some (ErrorString "body must not be empty")).
Proof.
  intros Hsp Hlen. rewrite ReadJSON_unfold.
  destruct (body_decoder_fields t Body) as (Herr & Hscan & Hbuf).
  destruct (Z.ltb_spec (maxBytes_of t) 0) as [Hneg | _]; [lia |].
  destruct (Z.leb_spec (Z.of_nat (String.length Body)) (maxBytes_of t)) as [_ | Hgt]; [| lia].
  destruct Hbuf as [Hbuf Hrd].
  unfold json.Decode, json.readValue. rewrite Herr, Hscan, Hbuf, Hrd.
  destruct (readValue_scan_spaces (list_ascii_of_string Body)
              (json.reset (json.mkScanner json.stateBeginValue false [] None 0)) 0
              eq_refl Hsp) as (s' & -> & Hst).
  destruct (decide (EOF = EOF)) as [_ | Hne]; [| contradiction].
  unfold json.step. rewrite Hst. cbn. now rewrite Hsp.
Qed.

(** X15.  When the first byte of the body that is not white space is one
    with which no JSON value begins, and it lies within the limit, [ReadJSON]
    reports badly-formed JSON at the place of that byte, counted from 1,
    whatever follows it and however long the body is; the destination is left
    as it was. *)
Theorem ReadJSON_bad_first_byte (t : Tools) (ws : list ascii) (c : ascii) (rest : list ascii)
    (data : Dest) :
  json.nonSpace ws = false ->
  json.isSpace c = false ->
  begins_value c = false ->
  Z.of_nat (length ws) < maxBytes_of t ->
  ReadJSON Dest Unmarshal Unmarshal_struct0 t (string_of_list_ascii (ws ++ c :: rest)) data
    = (data, Some (ErrorString ("body contains badly-formed JSON (at character "
                                +:+ fmt_d (Z.of_nat (length ws) + 1) +:+ ")"))).
Proof.
  intros Hws Hc Hbegin Hlen. rewrite ReadJSON_unfold.
  destruct (body_decoder_fields t (string_of_list_ascii (ws ++ c :: rest)))
    as (Herr & Hscan & Hbuf).
  rewrite list_ascii_of_string_of_list_ascii in Hbuf.
  destruct (Z.ltb_spec (maxBytes_of t) 0) as [Hneg | _]; [lia |].
  assert (Hdelivered : exists rest',
             json.buf (body_decoder t (string_of_list_ascii (ws ++ c :: rest)))
               = ws ++ c :: rest').
  { destruct (_ <=? _); destruct Hbuf as [-> _]; [now exists rest |].
    exists (take (pred (Z.to_nat (maxBytes_of t) - length ws)) rest).
    rewrite take_app_ge by lia.
    destruct (Z.to_nat (maxBytes_of t) - length ws)%nat as [|m] eqn:Hm; [lia | reflexivity]. }
  destruct Hdelivered as (rest' & Hdelivered).
  unfold json.Decode, json.readValue. rewrite Herr, Hscan, Hdelivered.
  destruct (readValue_scan_leading_spaces ws (c :: rest')
              (json.reset (json.mkScanner json.stateBeginValue false [] None 0)) 0
              eq_refl Hws) as (s' & -> & Hst & Hbytes).
  cbn [json.readValue_scan]. unfold json.step. cbn [json.step_ json.set_bytes]. rewrite Hst.
  destruct (do_stateBeginValue_refuses (json.set_bytes s' (json.bytes s' + 1)) c Hc Hbegin)
    as (msg & ->).
  cbn [json.err json.bytes json.set_bytes]. rewrite Hbytes.
  cbn [json.reset json.bytes decode_failure]. reflexivity.
Qed.

(** X16.  After a first value that decodes, bytes other than white space, or
    a body that is longer than the limit, make [ReadJSON] fail with "body
    must contain only one JSON value", the destination being filled with the
    first value: no error of the scanner is [io.EOF], and neither is one of
    unmarshalling into the empty struct. *)
Theorem ReadJSON_trailing_bytes (t : Tools) (Body : string) (data data1 : Dest)
    (dec1 : json.Decoder) :
  json.Decode Unmarshal (body_decoder t Body) data = ((data1, None), dec1) ->
  (forall dis text, (Unmarshal_struct0 dis text tt).2 <> Some EOF) ->
  json.nonSpace (json.buf dec1) = true \/
    Z.max 0 (maxBytes_of t) < Z.of_nat (String.length Body) ->
  ReadJSON Dest Unmarshal Unmarshal_struct0 t Body data
    = (data1, Some (ErrorString "body must contain only one JSON value")).
Proof.
  intros Hfirst Hum Hleft. rewrite ReadJSON_unfold, Hfirst.
  destruct (Decode_ok_dec_err _ _ _ _ _ Hfirst) as [Herr Hrd].
  rewrite bool_decide_eq_false_2; [reflexivity |].
  apply Decode_not_EOF; [exact Herr | exact Hum |].
  destruct Hleft as [Hns | Hlong]; [now left | right].
  rewrite Hrd. destruct (body_decoder_fields t Body) as (_ & _ & Hbuf).
  destruct (Z.leb_spec (Z.of_nat (String.length Body))
              (if maxBytes_of t <? 0 then 0 else maxBytes_of t)) as [Hle | _].
  - destruct (Z.ltb_spec (maxBytes_of t) 0); lia.
  - destruct Hbuf as [_ ->]. discriminate.
Qed.

End ReadJSONMore.

Lemma ReadJSON_blank_body_witness :
  ReadJSON string Sample.Unmarshal_any Sample.Unmarshal_struct0 (mkTools 0 [] 1024 false)
    "  " "kept" = ("kept", Some (ErrorString "body must not be empty")).
Proof.
  apply (ReadJSON_blank_body string Sample.Unmarshal_any Sample.Unmarshal_struct0
           (mkTools 0 [] 1024 false) "  " "kept").
  - reflexivity.
  - vm_compute. discriminate.
Defined.

Lemma ReadJSON_bad_first_byte_witness :
  ReadJSON string Sample.Unmarshal_any Sample.Unmarshal_struct0 (mkTools 0 [] 5 false)
    " Hello, World!" "kept"
    = ("kept", Some (ErrorString "body contains badly-formed JSON (at character 2)")).
Proof.
  apply (ReadJSON_bad_first_byte string Sample.Unmarshal_any Sample.Unmarshal_struct0
           (mkTools 0 [] 5 false) [" "%char] "H"%char (list_ascii_of_string "ello, World!")
           "kept").
  - reflexivity.
  - reflexivity.
  - reflexivity.
  - vm_compute. reflexivity.
Defined.

Lemma ReadJSON_trailing_bytes_witness :
  ReadJSON string Sample.Unmarshal_any Sample.Unmarshal_struct0 (mkTools 0 [] 1024 false)
    (Sample.body_foo +:+ " x") ""
    = (Sample.body_foo, Some (ErrorString "body must contain only one JSON value")).
Proof.
  refine (ReadJSON_trailing_bytes string Sample.Unmarshal_any Sample.Unmarshal_struct0
            (mkTools 0 [] 1024 false) (Sample.body_foo +:+ " x") "" Sample.body_foo
            (json.Decode Sample.Unmarshal_any
               (body_decoder (mkTools 0 [] 1024 false) (Sample.body_foo +:+ " x")) "").2
            _ _ _).
  - vm_compute. reflexivity.
  - intros dis text. discriminate.
  - left. vm_compute. reflexivity.
Defined.

(** ** WriteJSON and ErrorJSON *)

Lemma copy_headers_lookup (from : http.Header) (keys : list string) :
  forall (h : http.Header) (k : string),
    copy_headers from keys h !! k =
      if decide (k ∈ keys)
      then match from !! k with Some v => Some v | None => h !! k end
      else h !! k.
Proof.
  induction keys as [|k0 keys IH]; intros h k.
  - destruct (decide (k ∈ [])) as [Hin | _]; [now apply elem_of_nil in Hin | reflexivity].
  - cbn [copy_headers]. destruct (decide (k = k0)) as [-> | Hne].
    + destruct (decide (k0 ∈ k0 :: keys)) as [_ | Hout]; [| exfalso; apply Hout; left].
      destruct (from !! k0) as [v |] eqn:Hv; rewrite IH, ?Hv.
      * rewrite lookup_insert_eq. now destruct (decide (k0 ∈ keys)).
      * now destruct (decide (k0 ∈ keys)).
    + assert (Hmem : k ∈ k0 :: keys <-> k ∈ keys)
        by (rewrite elem_of_cons; tauto).
      destruct (from !! k0) as [v |]; rewrite IH, ?lookup_insert_ne by congruence;
        destruct (decide (k ∈ keys)), (decide (k ∈ k0 :: keys)); tauto.
Qed.

(** In whatever order the [range] goes through the given headers, the loop
    leaves the given headers laid over those of the writer. *)
Lemma copy_headers_union (from h : http.Header) (keys : list string) :
  range_order from keys -> copy_headers from keys h = from ∪ h.
Proof.
  intros [_ Hkeys]. apply map_eq. intros k.
  rewrite copy_headers_lookup, lookup_union.
  destruct (decide (k ∈ keys)) as [Hin | Hout].
  - destruct (from !! k), (h !! k); reflexivity.
  - assert (Hnone : from !! k = None).
    { destruct (from !! k) eqn:Hk; [| reflexivity].
      exfalso. apply Hout, Hkeys. now rewrite Hk. }
    rewrite Hnone. now destruct (h !! k).
Qed.

(** X17.  What [WriteJSON] sends.  When [json.Marshal] fails, its error is
    returned and the writer is not touched.  Otherwise the header map of the
    writer becomes the first optional argument laid over what the writer
    held, in whatever order the map is gone through, with [Content-Type] set
    to [application/json] over a value of the caller or of the writer; then
    come one [WriteHeader] with the status and one [Write] with the text, and
    the result is what [Write] returns, the status being sent also when
    [Write] fails. *)
Theorem WriteJSON_response {Data : Type} (Marshal : Data -> go_error + string)
    (w : http.ResponseWriter) (status : Z) (data : Data) (headers : list http.Header)
    (keys : list string) :
  (forall headers0, head headers = Some headers0 -> range_order headers0 keys) ->
  match Marshal data with
  | inl err => WriteJSON Marshal w status data headers keys = (Some err, w)
  | inr out =>
      let header :=
        <["Content-Type" := ["application/json"]]>
          (default ∅ (head headers) ∪ http.rw_Header w) in
      WriteJSON Marshal w status data headers keys
        = (http.rw_Write_err w,
           http.mkResponseWriter header
             (http.rw_calls w ++ [http.CallWriteHeader status header; http.CallWrite out])
             (http.rw_Write_err w))
  end.
Proof.
  intros Hkeys. unfold WriteJSON. destruct (Marshal data) as [err | out]; [reflexivity |].
  cbv zeta.
  assert (Hcopy : match headers with
                  | headers0 :: _ =>
                      http.with_Header w (copy_headers headers0 keys (http.rw_Header w))
                  | [] => w
                  end = http.with_Header w (default ∅ (head headers) ∪ http.rw_Header w)).
  { destruct headers as [|headers0 more]; cbn [head default].
    - rewrite (left_id_L ∅ (∪)). now destruct w.
    - now rewrite copy_headers_union by now apply Hkeys. }
  rewrite Hcopy. unfold http.Write, http.WriteHeader, http.with_Header, http.Set_.
  cbn [http.rw_Header http.rw_calls http.rw_Write_err]. rewrite <- app_assoc. cbn [app].
  now destruct (http.rw_Write_err w).
Qed.

(** X18.  What [ErrorJSON] sends.  For a [nil] error it panics before
    anything reaches the writer.  Otherwise the payload has [Error] set, the
    text of the error as [Message] and no [Data]; the status is 400 unless a
    first optional argument gives another; the headers of the writer are
    kept, but for [Content-Type]; and an error of [json.Marshal] or of
    [Write] is the result. *)
Theorem ErrorJSON_response {Any : Type} (Marshal : JSONResponse.t Any -> go_error + string)
    (w : http.ResponseWriter) (err : error) (status : list Z) :
  match err with
  | None =>
      ErrorJSON Marshal w err status
        = (Panics "runtime error: invalid memory address or nil pointer dereference", w)
  | Some e =>
      match Marshal (JSONResponse.mk true (Error e) None) with
      | inl me => ErrorJSON Marshal w err status = (Returns (Some me), w)
      | inr out =>
          let header := <["Content-Type" := ["application/json"]]> (http.rw_Header w) in
          ErrorJSON Marshal w err status
            = (Returns (http.rw_Write_err w),
               http.mkResponseWriter header
                 (http.rw_calls w
                  ++ [http.CallWriteHeader (default 400 (head status)) header;
                      http.CallWrite out])
                 (http.rw_Write_err w))
      end
  end.
Proof.
  destruct err as [e |]; [| now destruct status].
  unfold ErrorJSON, WriteJSON.
  destruct (Marshal (JSONResponse.mk true (Error e) None)) as [me | out]; [reflexivity |].
  unfold http.Write, http.WriteHeader, http.with_Header, http.Set_, http.StatusBadRequest.
  cbn [http.rw_Header http.rw_calls http.rw_Write_err]. rewrite <- app_assoc. cbn [app].
  destruct (http.rw_Write_err w); now destruct status.
Qed.

Lemma given_headers_range_order : range_order given_headers ["Content-Type"; "X-Trace"].
Proof.
  split; [now apply (bool_decide_unpack _) |].
  intros k. unfold given_headers. rewrite !elem_of_cons, elem_of_nil.
  destruct (decide (k = "X-Trace")) as [-> | Hx].
  - rewrite lookup_insert_eq. split; [now eexists | auto].
  - rewrite lookup_insert_ne by congruence.
    destruct (decide (k = "Content-Type")) as [-> | Hc].
    + rewrite lookup_insert_eq. split; [now eexists | auto].
    + rewrite lookup_insert_ne, lookup_empty by congruence.
      split; [tauto | now intros [? ?]].
Defined.

Lemma WriteJSON_response_witness :
  let header : http.Header :=
    <["Content-Type" := ["application/json"]]>
      (given_headers ∪ http.rw_Header (fresh_writer None)) in
  WriteJSON Marshal_bool (fresh_writer None) 200 true [given_headers] ["Content-Type"; "X-Trace"]
    = (None,
       http.mkResponseWriter header
         [http.CallWriteHeader 200 header; http.CallWrite "true"] None) /\
  header !! "X-Trace" = Some ["1"] /\ header !! "X-Request-Id" = Some ["7"].
Proof.
  split.
  - apply (WriteJSON_response Marshal_bool (fresh_writer None) 200 true [given_headers]
             ["Content-Type"; "X-Trace"]).
    intros headers0 [= <-]. exact given_headers_range_order.
  - split; vm_compute; reflexivity.
Defined.

(** ** The records and the disk *)



Section UploadRoundTrip.
Variable DetectContentType : list byte -> string.
Variable EqualFold : string -> string -> bool.



End UploadRoundTrip.


(** ** ReadJSON: a body with one value *)

(** A call of [readValue] that finds a value leaves the buffer, the error of
    the reader and the setting of the decoder as they were. *)
Lemma readValue_ok (dec dec' : json.Decoder) (n : nat) :
  json.readValue dec = ((n, None), dec') ->
  json.buf dec' = json.buf dec /\ json.rd_err dec' = json.rd_err dec /\
  json.dec_err dec' = json.dec_err dec /\
  json.disallowUnknownFields dec' = json.disallowUnknownFields dec.
Proof.
  unfold json.readValue.
  destruct (json.readValue_scan _ _ _) as [s [[k [e |]] | scanp]].
  - discriminate.
  - intros [= _ <-]. cbn. auto.
  - destruct (decide (json.rd_err dec = EOF)); [| discriminate].
    destruct (json.step s " ") as [s' []]; try discriminate.
    intros [= _ <-]. cbn. auto.
Qed.

Section ReadJSONValue.
Variable Dest : Type.
Variable Unmarshal : bool -> list ascii -> Dest -> Dest * error.
Variable Unmarshal_struct0 : bool -> list ascii -> unit -> unit * error.

(** X20.  A body within the limit in which the decoder finds a first value of
    [n] bytes, followed by white space only: [ReadJSON] unmarshals these [n]
    bytes and nothing else, with unknown fields disallowed exactly when
    [AllowUnknownFields] is not set; it returns [nil] when that succeeds, and
    otherwise what its [switch] makes of the error; in both cases the
    destination is as unmarshalling left it. *)
Theorem ReadJSON_one_value (t : Tools) (Body : string) (data : Dest) (n : nat) :
  Z.of_nat (String.length Body) <= maxBytes_of t ->
  (json.readValue (body_decoder t Body)).1 = (n, None) ->
  json.nonSpace (drop n (list_ascii_of_string Body)) = false ->
  ReadJSON Dest Unmarshal Unmarshal_struct0 t Body data =
    match Unmarshal (negb (AllowUnknownFields t)) (take n (list_ascii_of_string Body)) data with
    | (data1, None) => (data1, None)
    | (data1, Some e) => (data1, Some (decode_failure (maxBytes_of t) e))
    end.
Proof.
  intros Hlen Hvalue Hrest. rewrite ReadJSON_unfold.
  destruct (body_decoder_fields t Body) as (Herr & _ & Hbuf).
  destruct (Z.ltb_spec (maxBytes_of t) 0) as [Hneg | _]; [lia |].
  destruct (Z.leb_spec (Z.of_nat (String.length Body)) (maxBytes_of t)) as [_ | Hgt]; [| lia].
  destruct Hbuf as [Hbuf Hrd].
  assert (Hflag : json.disallowUnknownFields (body_decoder t Body)
                  = negb (AllowUnknownFields t)).
  { unfold body_decoder. now destruct (AllowUnknownFields t). }
  unfold json.Decode at 1. rewrite Herr.
  destruct (json.readValue (body_decoder t Body)) as [[k e] dec'] eqn:Hread.
  cbn [fst] in Hvalue. injection Hvalue as -> ->.
  destruct (readValue_ok _ _ _ Hread) as (Hbuf' & Hrd' & Herr' & Hflag').
  cbn [json.disallowUnknownFields json.buf]. rewrite Hflag', Hflag, Hbuf', Hbuf.
  destruct (Unmarshal _ _ data) as [data1 [e |]]; [reflexivity |].
  rewrite Decode_spaces_EOF; [now rewrite bool_decide_eq_true_2 | | |];
    cbn [json.dec_err json.rd_err json.buf]; congruence.
Qed.

End ReadJSONValue.

Lemma ReadJSON_one_value_witness :
  ReadJSON string Sample.Unmarshal_any Sample.Unmarshal_struct0 (mkTools 0 [] 1024 false)
    (Sample.body_foo +:+ "  ") "" = (Sample.body_foo, None).
Proof.
  apply (ReadJSON_one_value string Sample.Unmarshal_any Sample.Unmarshal_struct0
           (mkTools 0 [] 1024 false) (Sample.body_foo +:+ "  ") "" 14).
  - vm_compute. discriminate.
  - vm_compute. reflexivity.
  - vm_compute. reflexivity.
Defined.
